(** * Vibe: the playback core of [audio.py]

    A shallow embedding of the [AudioPlayer] class (playlist navigation,
    play/pause, seeking, loop modes, the position clock, metadata and the
    [M:SS] formatter) together with the properties its specification
    states about it.

    Conventions of the embedding.
    - Python [int] is [Z]; Python [float] is [Q], an exact rational, so
      that rounding of the float arithmetic is outside the model (the
      properties proved about floats here are order properties, which
      rounding to nearest keeps).
    - [pygame.mixer.music] is an external collaborator: every call to it is
      appended to a trace, and an oracle of the environment decides whether
      the call raises [pygame.error].
    - [pygame.time.get_ticks()], the file dialog and the [mutagen] reader
      are inputs supplied by the environment.
    - A method is a computation in the monad [M]: it reads the
      environment, threads the object and the trace, and either returns
      or raises.  As in Python, what was assigned before an exception stays
      assigned. *)

From Stdlib Require Import ZArith QArith Qround Qminmax String Ascii List Bool Lia.
From Stdlib Require Import Decimal DecimalString.
From Stdlib Require Import Qabs.
Import ListNotations.

Local Open Scope string_scope.
Local Open Scope Z_scope.

(** ** Python primitives used by the class *)

Module Py.

(** [int(x)] on a float: truncation toward zero. *)
Definition int (x : Q) : Z := Z.quot (Qnum x) (Zpos (Qden x)).

(** [a // b] and [a % b] on ints: floor division and its remainder (the
    sign of the remainder follows the divisor).  Python raises
    [ZeroDivisionError] for [b = 0]; every use in the class has [b = 60],
    [b = 3] or [b = len(playlist)] behind a non-empty guard. *)
Definition floordiv (a b : Z) : Z := a / b.
Definition mod_ (a b : Z) : Z := a mod b.

(** [str(n)] on an int: decimal digits, with a minus sign when negative. *)
Definition str (n : Z) : string := NilZero.string_of_int (Z.to_int n).

(** Left padding of a digit string with ['0'] up to [width] characters. *)
Fixpoint zfill (pad : nat) (s : string) : string :=
  match pad with
  | O => s
  | S k => String "0"%char (zfill k s)
  end.

(** [f"{n:02}"]: zero padding to width 2, the sign (if any) first. *)
Definition format_02 (n : Z) : string :=
  if n <? 0
  then "-" ++ zfill (1 - String.length (str (- n))) (str (- n))
  else zfill (2 - String.length (str n)) (str n).

(** [min(a, b)] on numbers: [b] when [b < a], otherwise [a]. *)
Definition min (a b : Q) : Q := if Qle_bool a b then a else b.

(** [l[i]]: a negative [i] counts from the end; out of range is
    [IndexError], here [None]. *)
Definition getitem {A} (l : list A) (i : Z) : option A :=
  let n := Z.of_nat (List.length l) in
  if (0 <=? i) && (i <? n) then nth_error l (Z.to_nat i)
  else if (- n <=? i) && (i <? 0) then nth_error l (Z.to_nat (n + i))
  else None.

(** Truth value of a list: non-empty. *)
Definition truthy {A} (l : list A) : bool :=
  match l with [] => false | _ :: _ => true end.

End Py.

(** ** Data model *)

(** The two button objects that [current_icon] switches between. *)
Inductive Icon := play_bnt | pause_bnt.

(** The instance fields of [AudioPlayer] (the window and Tk handles, which
    the playback logic never reads, are left out; [window_current_icon]
    is [player_window.current_icon]). *)
Record AudioPlayer := mkAudioPlayer {
  AUDIO_OK : bool;
  playlist : list string;
  index : Z;
  is_playing : bool;
  paused : bool;
  loop_mode : Z;
  current_song_title : string;
  current_song_artist : string;
  current_song_length : string;
  current_song_position : string;
  song_length : Z;
  seek_offset : Q;
  last_update_time : Z;
  current_icon : Icon;
  window_current_icon : Icon
}.

Definition set_playlist (v : list string) (s : AudioPlayer) : AudioPlayer :=
  mkAudioPlayer (AUDIO_OK s) v (index s) (is_playing s) (paused s) (loop_mode s)
    (current_song_title s) (current_song_artist s) (current_song_length s)
    (current_song_position s) (song_length s) (seek_offset s)
    (last_update_time s) (current_icon s) (window_current_icon s).

Definition set_index (v : Z) (s : AudioPlayer) : AudioPlayer :=
  mkAudioPlayer (AUDIO_OK s) (playlist s) v (is_playing s) (paused s) (loop_mode s)
    (current_song_title s) (current_song_artist s) (current_song_length s)
    (current_song_position s) (song_length s) (seek_offset s)
    (last_update_time s) (current_icon s) (window_current_icon s).

Definition set_is_playing (v : bool) (s : AudioPlayer) : AudioPlayer :=
  mkAudioPlayer (AUDIO_OK s) (playlist s) (index s) v (paused s) (loop_mode s)
    (current_song_title s) (current_song_artist s) (current_song_length s)
    (current_song_position s) (song_length s) (seek_offset s)
    (last_update_time s) (current_icon s) (window_current_icon s).

Definition set_paused (v : bool) (s : AudioPlayer) : AudioPlayer :=
  mkAudioPlayer (AUDIO_OK s) (playlist s) (index s) (is_playing s) v (loop_mode s)
    (current_song_title s) (current_song_artist s) (current_song_length s)
    (current_song_position s) (song_length s) (seek_offset s)
    (last_update_time s) (current_icon s) (window_current_icon s).

Definition set_loop_mode (v : Z) (s : AudioPlayer) : AudioPlayer :=
  mkAudioPlayer (AUDIO_OK s) (playlist s) (index s) (is_playing s) (paused s) v
    (current_song_title s) (current_song_artist s) (current_song_length s)
    (current_song_position s) (song_length s) (seek_offset s)
    (last_update_time s) (current_icon s) (window_current_icon s).

Definition set_current_song_title (v : string) (s : AudioPlayer) : AudioPlayer :=
  mkAudioPlayer (AUDIO_OK s) (playlist s) (index s) (is_playing s) (paused s)
    (loop_mode s) v (current_song_artist s) (current_song_length s)
    (current_song_position s) (song_length s) (seek_offset s)
    (last_update_time s) (current_icon s) (window_current_icon s).

Definition set_current_song_artist (v : string) (s : AudioPlayer) : AudioPlayer :=
  mkAudioPlayer (AUDIO_OK s) (playlist s) (index s) (is_playing s) (paused s)
    (loop_mode s) (current_song_title s) v (current_song_length s)
    (current_song_position s) (song_length s) (seek_offset s)
    (last_update_time s) (current_icon s) (window_current_icon s).

Definition set_current_song_length (v : string) (s : AudioPlayer) : AudioPlayer :=
  mkAudioPlayer (AUDIO_OK s) (playlist s) (index s) (is_playing s) (paused s)
    (loop_mode s) (current_song_title s) (current_song_artist s) v
    (current_song_position s) (song_length s) (seek_offset s)
    (last_update_time s) (current_icon s) (window_current_icon s).


Definition set_song_length (v : Z) (s : AudioPlayer) : AudioPlayer :=
  mkAudioPlayer (AUDIO_OK s) (playlist s) (index s) (is_playing s) (paused s)
    (loop_mode s) (current_song_title s) (current_song_artist s)
    (current_song_length s) (current_song_position s) v (seek_offset s)
    (last_update_time s) (current_icon s) (window_current_icon s).

Definition set_seek_offset (v : Q) (s : AudioPlayer) : AudioPlayer :=
  mkAudioPlayer (AUDIO_OK s) (playlist s) (index s) (is_playing s) (paused s)
    (loop_mode s) (current_song_title s) (current_song_artist s)
    (current_song_length s) (current_song_position s) (song_length s) v
    (last_update_time s) (current_icon s) (window_current_icon s).

Definition set_last_update_time (v : Z) (s : AudioPlayer) : AudioPlayer :=
  mkAudioPlayer (AUDIO_OK s) (playlist s) (index s) (is_playing s) (paused s)
    (loop_mode s) (current_song_title s) (current_song_artist s)
    (current_song_length s) (current_song_position s) (song_length s)
    (seek_offset s) v (current_icon s) (window_current_icon s).

Definition set_current_icon (v : Icon) (s : AudioPlayer) : AudioPlayer :=
  mkAudioPlayer (AUDIO_OK s) (playlist s) (index s) (is_playing s) (paused s)
    (loop_mode s) (current_song_title s) (current_song_artist s)
    (current_song_length s) (current_song_position s) (song_length s)
    (seek_offset s) (last_update_time s) v (window_current_icon s).

Definition set_window_current_icon (v : Icon) (s : AudioPlayer) : AudioPlayer :=
  mkAudioPlayer (AUDIO_OK s) (playlist s) (index s) (is_playing s) (paused s)
    (loop_mode s) (current_song_title s) (current_song_artist s)
    (current_song_length s) (current_song_position s) (song_length s)
    (seek_offset s) (last_update_time s) (current_icon s) v.

(** The three statuses of the specification, read off the two flags.
    [get_current_position] treats a set [paused] flag as "not playing"
    whatever [is_playing] says, hence the order of the tests. *)
Inductive PlaybackStatus := Stopped | Playing | Paused.

Definition status (s : AudioPlayer) : PlaybackStatus :=
  if paused s then Paused else if is_playing s then Playing else Stopped.

(** ** The outside world *)

(** Calls into [pygame.mixer.music]. *)
Inductive BackendCall :=
| Load (song : string)
| Play
| PlayFrom (start : Q)
| Pause
| Unpause
| SetPos (pos : Q)
| SetVolume (volume : Q).

(** What [MP3(path, ID3=EasyID3)] gives for a readable file: the two tag
    lists ([None] when the tag is absent) and [info.length] in seconds. *)
Record MP3File := mkMP3File {
  tag_title : option (list string);
  tag_artist : option (list string);
  info_length : Q
}.

(** The environment of one method call. *)
Record Env := mkEnv {
  (** the value of [pygame.time.get_ticks()], in milliseconds *)
  get_ticks : Z;
  (** does this backend call raise [pygame.error], given the calls so far *)
  backend_raises : list BackendCall -> BackendCall -> bool;
  (** the [mutagen] reader; [None] when it raises *)
  MP3 : string -> option MP3File
}.

Inductive exn := IndexError | pygame_error | MutagenError.

Inductive outcome (A : Type) :=
| Returned (a : A)
| Raised (e : exn).
Arguments Returned {A} a.
Arguments Raised {A} e.

(** The object together with the trace of backend calls issued so far
    (oldest first; a call that raised is in the trace too). *)
Record Machine := mkMachine {
  self : AudioPlayer;
  mixer : list BackendCall
}.

(** ** The monad of methods *)

Definition M (A : Type) : Type := Env -> Machine -> outcome A * Machine.

Definition ret {A} (a : A) : M A := fun _ m => (Returned a, m).

Definition bind {A B} (c : M A) (k : A -> M B) : M B := fun env m =>
  match c env m with
  | (Returned a, m') => k a env m'
  | (Raised e, m') => (Raised e, m')
  end.

Definition raise {A} (e : exn) : M A := fun _ m => (Raised e, m).

(** [try: body except <catches>: handler]. *)
Definition try_except {A} (body : M A) (catches : exn -> bool) (handler : M A)
  : M A := fun env m =>
  match body env m with
  | (Returned a, m') => (Returned a, m')
  | (Raised e, m') => if catches e then handler env m' else (Raised e, m')
  end.

Definition Exception : exn -> bool := fun _ => true.

Definition pygame_error_only : exn -> bool := fun e =>
  match e with pygame_error => true | _ => false end.

Declare Scope py_scope.
Delimit Scope py_scope with py.
Notation "x <- c ;; k" := (bind c (fun x => k))
  (at level 61, c at next level, right associativity) : py_scope.
Notation "c ;; k" := (bind c (fun _ => k))
  (at level 61, right associativity) : py_scope.
Local Open Scope py_scope.

(** Reading and assigning fields of [self]. *)
Definition read {A} (f : AudioPlayer -> A) : M A :=
  fun _ m => (Returned (f (self m)), m).

Definition assign (f : AudioPlayer -> AudioPlayer) : M unit :=
  fun _ m => (Returned tt, mkMachine (f (self m)) (mixer m)).

Definition ticks : M Z := fun env m => (Returned (get_ticks env), m).

(** A call into the backend: recorded, then it returns or raises. *)
Definition music (c : BackendCall) : M unit := fun env m =>
  let m' := mkMachine (self m) (mixer m ++ [c])%list in
  if backend_raises env (mixer m) c then (Raised pygame_error, m')
  else (Returned tt, m').

(** [self.playlist[self.index]]. *)
Definition playlist_at_index : M string := fun _ m =>
  match Py.getitem (playlist (self m)) (index (self m)) with
  | Some song => (Returned song, m)
  | None => (Raised IndexError, m)
  end.

(** [MP3(path, ID3=EasyID3)]. *)
Definition read_mp3 (path : string) : M MP3File := fun env m =>
  match MP3 env path with
  | Some f => (Returned f, m)
  | None => (Raised MutagenError, m)
  end.

(** A method that only reads [self] and the environment. *)
Definition query {A} (f : Env -> AudioPlayer -> A) : M A :=
  fun env m => (Returned (f env (self m)), m).

(** ** The class [AudioPlayer] *)

(** [__init__]: [mixer_ok] tells whether [pygame.mixer.init()] and
    [set_endevent] went through.  [player_window.current_icon] starts as
    the play button. *)
Definition __init__ (mixer_ok : bool) : AudioPlayer :=
  {| AUDIO_OK := mixer_ok;
     playlist := [];
     index := 0;
     is_playing := false;
     paused := false;
     loop_mode := 0;
     current_song_title := "";
     current_song_artist := "";
     current_song_length := "0:00";
     current_song_position := "0:00";
     song_length := 0;
     seek_offset := 0%Q;
     last_update_time := 0;
     current_icon := play_bnt;
     window_current_icon := play_bnt |}.

(** [x[0] if x else ""] on the result of [audio_file.get(tag)]. *)
Definition first_or_empty (tag : option (list string)) : string :=
  match tag with
  | Some (x :: _) => x
  | _ => ""
  end.

Definition _song_meta_data : M unit :=
  try_except
    (path <- playlist_at_index ;;
     audio_file <- read_mp3 path ;;
     let title := first_or_empty (tag_title audio_file) in
     let artist := first_or_empty (tag_artist audio_file) in
     let seconds := Py.int (info_length audio_file) in
     assign (set_song_length seconds) ;;
     let minutes := Py.floordiv seconds 60 in
     let remaining_seconds := Py.mod_ seconds 60 in
     let duration := Py.str minutes ++ ":" ++ Py.format_02 remaining_seconds in
     assign (set_current_song_title title) ;;
     assign (set_current_song_artist artist) ;;
     assign (set_current_song_length duration))
    Exception
    (ret tt).

Definition _play_music (song : string) : M unit :=
  ok <- read AUDIO_OK ;;
  if ok then
    music (Load song) ;;
    music Play ;;
    assign (set_is_playing true) ;;
    assign (set_paused false) ;;
    assign (set_seek_offset 0%Q) ;;
    now <- ticks ;;
    assign (set_last_update_time now) ;;
    _song_meta_data
  else ret tt.

Definition _pause_music : M unit :=
  ok <- read AUDIO_OK ;;
  if ok then
    music Pause ;;
    assign (set_is_playing false) ;;
    assign (set_paused true)
  else ret tt.

Definition toggle_play_pause : M unit :=
  pl <- read playlist ;;
  if negb (Py.truthy pl) then ret tt
  else
    playing <- read is_playing ;;
    if playing then
      try_except _pause_music Exception (ret tt) ;;
      assign (set_is_playing false) ;;
      assign (set_current_icon play_bnt)
    else
      try_except
        (p <- read paused ;;
         if negb p then
           song <- playlist_at_index ;;
           _play_music song
         else
           music Unpause ;;
           assign (set_paused false))
        Exception
        (song <- playlist_at_index ;;
         _play_music song) ;;
      assign (set_is_playing true) ;;
      assign (set_current_icon pause_bnt).

(** [add_songs]: [files] is what the file dialog returned. *)
Definition add_songs (files : list string) : M unit :=
  if Py.truthy files then
    assign (set_playlist files) ;;
    song <- playlist_at_index ;;
    _play_music song ;;
    assign (set_is_playing true) ;;
    assign (set_current_icon pause_bnt)
  else ret tt.

Definition next_song : M unit :=
  pl <- read playlist ;;
  if negb (Py.truthy pl) then ret tt
  else
    i <- read index ;;
    assign (set_index (Py.mod_ (i + 1) (Z.of_nat (List.length pl)))) ;;
    song <- playlist_at_index ;;
    _play_music song ;;
    assign (set_is_playing true) ;;
    assign (set_current_icon pause_bnt).

Definition previous_song : M unit :=
  pl <- read playlist ;;
  if negb (Py.truthy pl) then ret tt
  else
    i <- read index ;;
    assign (set_index (Py.mod_ (i - 1) (Z.of_nat (List.length pl)))) ;;
    song <- playlist_at_index ;;
    _play_music song ;;
    assign (set_is_playing true) ;;
    assign (set_current_icon pause_bnt).

Definition change_volume (value : Q) : M unit :=
  music (SetVolume value).

(** [adjust_song]: the [print] of the handler writes to the console only. *)
Definition adjust_song (value : Q) : M unit :=
  pl <- read playlist ;;
  len <- read song_length ;;
  if negb (Py.truthy pl) || (len =? 0) then ret tt
  else
    let position_seconds := (value * inject_Z len)%Q in
    try_except
      (assign (set_seek_offset position_seconds) ;;
       now <- ticks ;;
       assign (set_last_update_time now) ;;
       music (SetPos position_seconds) ;;
       playing <- read is_playing ;;
       if negb playing then
         music (PlayFrom position_seconds) ;;
         assign (set_is_playing true) ;;
         assign (set_paused false)
       else
         p <- read paused ;;
         if p then
           music Unpause ;;
           assign (set_paused false)
         else ret tt)
      pygame_error_only
      (ret tt).

Definition get_current_position (env : Env) (s : AudioPlayer) : Q :=
  if negb (is_playing s) || paused s then seek_offset s
  else
    let elapsed := (inject_Z (get_ticks env - last_update_time s) / 1000)%Q in
    let current_pos := (seek_offset s + elapsed)%Q in
    Py.min current_pos (inject_Z (song_length s)).

Definition convert_sec_min (seconds : Q) : string :=
  let minutes := Py.floordiv (Py.int seconds) 60 in
  let remaining_seconds := Py.mod_ (Py.int seconds) 60 in
  Py.str minutes ++ ":" ++ Py.format_02 remaining_seconds.


Definition toggle_loop_mode : M Z :=
  mode <- read loop_mode ;;
  assign (set_loop_mode (Py.mod_ (mode + 1) 3)) ;;
  read loop_mode.

Definition on_song_end : M unit :=
  mode <- read loop_mode ;;
  if mode =? 2 then
    song <- playlist_at_index ;;
    _play_music song ;;
    assign (set_window_current_icon pause_bnt) ;;
    assign (set_current_icon pause_bnt)
  else if mode =? 1 then
    next_song
  else
    assign (set_is_playing false) ;;
    assign (set_paused false) ;;
    assign (set_seek_offset 0%Q) ;;
    assign (set_last_update_time 0) ;;
    assign (set_window_current_icon play_bnt) ;;
    assign (set_current_icon play_bnt).

(** ** The event loop's view: intents *)

(** The intents of the specification, as the loop of [player.py] issues
    them: button clicks, slider callbacks, the file dialog and the
    end-of-track event. *)
Inductive Intent :=
| loadPlaylist (files : list string)
| togglePlayPause
| next
| previous
| seek (fraction : Q)
| setVolume (volume : Q)
| cycleLoopMode
| onTrackNaturallyEnded.

Definition perform (i : Intent) : M unit :=
  match i with
  | loadPlaylist files => add_songs files
  | togglePlayPause => toggle_play_pause
  | next => next_song
  | previous => previous_song
  | seek fraction => adjust_song fraction
  | setVolume volume => change_volume volume
  | cycleLoopMode => toggle_loop_mode ;; ret tt
  | onTrackNaturallyEnded => on_song_end
  end.

(** The sliders clamp their value to [0, 1] before calling back. *)
Definition in_domain (i : Intent) : Prop :=
  match i with
  | seek fraction => (0 <= fraction <= 1)%Q
  | setVolume volume => (0 <= volume <= 1)%Q
  | _ => True
  end.

(** A track's [info.length] is a duration. *)
Definition sane (env : Env) : Prop :=
  forall path f, MP3 env path = Some f -> (0 <= info_length f)%Q.

(** The backend accepts every call. *)
Definition accepts (env : Env) : Prop :=
  forall calls c, backend_raises env calls c = false.

(** The machines the event loop can be in: the constructor's, and whatever
    an intent leaves behind, whether its method returned or raised. *)
Inductive reachable : Machine -> Prop :=
| reach_init : forall mixer_ok, reachable (mkMachine (__init__ mixer_ok) [])
| reach_step : forall m env i,
    reachable m -> in_domain i -> sane env ->
    reachable (snd (perform i env m)).

(** What holds of [self] in every reachable machine. *)
Record Inv (s : AudioPlayer) : Prop := mkInv {
  inv_exclusive : is_playing s && paused s = false;
  inv_paused_mixer : paused s = true -> AUDIO_OK s = true;
  inv_nonempty : is_playing s || paused s = true -> playlist s <> [];
  inv_no_mixer_no_length : AUDIO_OK s = false -> song_length s = 0;
  inv_index : 0 <= index s;
  inv_length : 0 <= song_length s;
  inv_offset_lo : (0 <= seek_offset s)%Q;
  inv_offset_hi : (seek_offset s <= inject_Z (song_length s))%Q
}.

Definition index_in_range (s : AudioPlayer) : Prop :=
  0 <= index s < Z.of_nat (List.length (playlist s)).

(** Reading the metadata of the current track fails: the reader raises
    on its path (or there is no such track). *)
Definition extraction_fails (env : Env) (s : AudioPlayer) : Prop :=
  forall path,
    Py.getitem (playlist s) (index s) = Some path -> MP3 env path = None.

(** ** The time format in the specification's words *)

Definition digit (d : Z) : ascii := ascii_of_nat (48 + Z.to_nat d).

(** Exactly two decimal digits. *)
Definition pad2 (r : Z) : string :=
  String (digit (r / 10)) (String (digit (r mod 10)) EmptyString).

(** ["{floor(seconds/60)}:{pad2(seconds mod 60)}"]. *)
Definition format_spec (seconds : Q) : string :=
  Py.str (Qfloor (seconds / 60)) ++ ":" ++ pad2 (Qfloor seconds mod 60).

(** ** Concrete environments and runs *)

(** At tick [t]: the backend accepts everything and every file is a
    readable three-minute track with a title and no artist tag. *)
Definition studio (t : Z) : Env :=
  {| get_ticks := t;
     backend_raises := fun _ _ => false;
     MP3 := fun path => Some (mkMP3File (Some ["Title of " ++ path]) None (1805 # 10)) |}.

(** As [studio], but no file can be read. *)
Definition unreadable (t : Z) : Env :=
  {| get_ticks := t;
     backend_raises := fun _ _ => false;
     MP3 := fun _ => None |}.

(** As [studio], but the backend rejects [set_pos]. *)
Definition no_seek (t : Z) : Env :=
  {| get_ticks := t;
     backend_raises := fun _ c => match c with SetPos _ => true | _ => false end;
     MP3 := fun path => Some (mkMP3File (Some ["Title of " ++ path]) None (1805 # 10)) |}.

(** The machine an intent leaves behind. *)
Definition after (i : Intent) (env : Env) (m : Machine) : Machine :=
  snd (perform i env m).

Definition fresh (mixer_ok : bool) : Machine := mkMachine (__init__ mixer_ok) [].

(** Three tracks loaded at tick 1000, the first one playing. *)
Definition three_loaded : Machine :=
  after (loadPlaylist ["a.mp3"; "b.mp3"; "c.mp3"]) (studio 1000) (fresh true).

(** ... then [next]: the second track playing. *)
Definition on_second_track : Machine := after next (studio 2000) three_loaded.

(** ... and [next] again: the last track playing. *)
Definition on_last_track : Machine := after next (studio 3000) on_second_track.

(** One track loaded at tick 1000 and paused at tick 6000. *)
Definition one_loaded : Machine :=
  after (loadPlaylist ["a.mp3"]) (studio 1000) (fresh true).

Definition one_paused : Machine := after togglePlayPause (studio 6000) one_loaded.

(** ... and resumed at tick 60000. *)
Definition one_resumed : Machine := after togglePlayPause (studio 60000) one_paused.

(** The mixer failed to initialise; one track was selected. *)
Definition no_mixer_loaded : Machine :=
  after (loadPlaylist ["a.mp3"]) (studio 1000) (fresh false).

(** No working mixer: every backend call raises ("mixer not initialized"). *)
Definition dead_mixer (t : Z) : Env :=
  {| get_ticks := t;
     backend_raises := fun _ _ => true;
     MP3 := fun path => Some (mkMP3File (Some ["Title of " ++ path]) None (1805 # 10)) |}.

(** With tracks in the playlist, the index points at one of them. *)
Definition valid_index (s : AudioPlayer) : Prop :=
  playlist s <> [] -> index_in_range s.

(** ** Draining the event queue *)

(** A run of the event loop: the intents in arrival order, each with the
    environment it meets. *)
Fixpoint perform_all (events : list (Intent * Env)) (m : Machine) : Machine :=
  match events with
  | [] => m
  | (i, env) :: rest => perform_all rest (after i env m)
  end.

(** The same intent at each of the given environments. *)
Definition repeated (i : Intent) (envs : list Env) : list (Intent * Env) :=
  map (fun env => (i, env)) envs.

(** What an intent appended to the backend trace. *)
Definition new_calls (before after_ : Machine) : list BackendCall :=
  skipn (List.length (mixer before)) (mixer after_).

(** ** The slider widget of [slider.py] *)

(** [max(a, b)], [abs(x)] and [x > y] on floats. *)
Definition py_max (a b : Q) : Q := if Qle_bool b a then a else b.
Definition py_abs (x : Q) : Q := if Qle_bool 0 x then x else (- x)%Q.
Definition py_gt (x y : Q) : bool := negb (Qle_bool x y).

(** A [pygame.Rect]: integer position and size. *)
Record Rect := mkRect {
  rect_x : Z;
  rect_y : Z;
  rect_width : Z;
  rect_height : Z
}.

(** The mouse events the widgets look at; [pos] is [event.pos]. *)
Inductive MouseEvent :=
| MOUSEBUTTONDOWN (button : Z) (pos : Z * Z)
| MOUSEMOTION (pos : Z * Z)
| MOUSEBUTTONUP (button : Z) (pos : Z * Z)
| OtherEvent.

(** The fields of [Slider_UI] ([on_click] is the caller's: a call to it is
    returned as [Some value], no call as [None]). *)
Record Slider_UI := mkSlider {
  rect : Rect;
  value : Q;
  dragging : bool
}.

Definition _update_slider_position (pos : Z * Z) (s : Slider_UI)
  : Slider_UI * option Q :=
  if rect_width (rect s) <=? 0 then (s, None)
  else
    let relative_x := fst pos - rect_x (rect s) in
    let new_value :=
      py_max 0 (Py.min 1 (inject_Z relative_x / inject_Z (rect_width (rect s)))) in
    if py_gt (py_abs (new_value - value s)) (1 # 1000000)
    then (mkSlider (rect s) new_value (dragging s), Some new_value)
    else (s, None).

Section Widgets.

(** [pygame.Rect.collidepoint], which belongs to the library. *)
Variable collidepoint : Rect -> Z * Z -> bool.

Definition handle_event (event : MouseEvent) (s : Slider_UI)
  : Slider_UI * option Q :=
  match event with
  | MOUSEBUTTONDOWN button pos =>
      if (button =? 1) && collidepoint (rect s) pos
      then _update_slider_position pos (mkSlider (rect s) (value s) true)
      else (s, None)
  | MOUSEMOTION pos =>
      if dragging s then _update_slider_position pos s else (s, None)
  | MOUSEBUTTONUP button pos =>
      if button =? 1 then (mkSlider (rect s) (value s) false, None)
      else (s, None)
  | OtherEvent => (s, None)
  end.

(** The slider fed a queue of events: the final slider and the values its
    callback was called with, in order. *)
Fixpoint handle_events (events : list MouseEvent) (s : Slider_UI)
  : Slider_UI * list Q :=
  match events with
  | [] => (s, [])
  | event :: rest =>
      let (s1, call) := handle_event event s in
      let (s2, calls) := handle_events rest s1 in
      (s2, match call with Some v => v :: calls | None => calls end)
  end.

(** The fields of [Buttons] of [buttons.py] that the event handling
    reads and writes (the image and the overlay surface are drawing
    data). *)
Record Buttons := mkButtons {
  button_rect : Rect;
  is_down : bool
}.

Definition handle_overlay (event : MouseEvent) (b : Buttons) : Buttons :=
  match event with
  | MOUSEBUTTONDOWN _ pos =>
      if collidepoint (button_rect b) pos then mkButtons (button_rect b) true
      else b
  | MOUSEBUTTONUP _ _ => mkButtons (button_rect b) false
  | _ => b
  end.

Definition was_clicked (event : MouseEvent) (b : Buttons) : bool :=
  match event with
  | MOUSEBUTTONUP _ pos => if collidepoint (button_rect b) pos then true else false
  | _ => false
  end.

(** A button in the event loop: for each event, [handle_overlay], then
    [was_clicked]; the answers of [was_clicked] are collected. *)
Fixpoint button_events (events : list MouseEvent) (b : Buttons)
  : Buttons * list bool :=
  match events with
  | [] => (b, [])
  | event :: rest =>
      let b1 := handle_overlay event b in
      let clicked := was_clicked event b1 in
      let (b2, clicks) := button_events rest b1 in
      (b2, clicked :: clicks)
  end.

(** An event that is neither a press inside the button nor a release. *)
Definition quiet (b : Buttons) (event : MouseEvent) : Prop :=
  match event with
  | MOUSEBUTTONDOWN _ pos => collidepoint (button_rect b) pos = false
  | MOUSEBUTTONUP _ _ => False
  | _ => True
  end.

End Widgets.

(** The geometry [draw] computes: the width of the filled part and the x
    coordinate of the knob ([rect.right] is [x + width]). *)
Definition draw_fill_width (s : Slider_UI) : Z :=
  Py.int (inject_Z (rect_width (rect s)) * value s).

Definition draw_knob_x (s : Slider_UI) : Z :=
  let knob_x := rect_x (rect s) + draw_fill_width s in
  Z.max (rect_x (rect s))
        (Z.min knob_x (rect_x (rect s) + rect_width (rect s))).


(** The point-in-rectangle test as pygame documents it: the left and top
    edges are inside, the right and bottom edges are not. *)
Definition pygame_collidepoint (r : Rect) (pos : Z * Z) : bool :=
  (rect_x r <=? fst pos) && (fst pos <? rect_x r + rect_width r) &&
  (rect_y r <=? snd pos) && (snd pos <? rect_y r + rect_height r).

(** The progress bar of [player.py] (its x coordinate 745.6 as the [Rect]
    stores it). *)
Definition music_slider : Slider_UI :=
  mkSlider (mkRect 745 366 330 7) 0 false.

(** As [studio], but the backend rejects [unpause]. *)
Definition no_unpause (t : Z) : Env :=
  {| get_ticks := t;
     backend_raises := fun _ c => match c with Unpause => true | _ => false end;
     MP3 := fun path => Some (mkMP3File (Some ["Title of " ++ path]) None (1805 # 10)) |}.

(** As [studio], but the backend rejects [pause]. *)
Definition no_pause (t : Z) : Env :=
  {| get_ticks := t;
     backend_raises := fun _ c => match c with Pause => true | _ => false end;
     MP3 := fun path => Some (mkMP3File (Some ["Title of " ++ path]) None (1805 # 10)) |}.

(** * Properties *)

(** ** The [M:SS] formatter *)

Lemma int_nonneg_floor (x : Q) : (0 <= x)%Q -> Py.int x = Qfloor x.
Proof.
  destruct x as [n d]. unfold Qle, Py.int, Qfloor. simpl. intros H.
  apply Z.quot_div_nonneg; lia.
Qed.

Lemma int_nonneg (x : Q) : (0 <= x)%Q -> 0 <= Py.int x.
Proof.
  intros H. rewrite int_nonneg_floor by exact H.
  destruct x as [n d]. unfold Qle in H. simpl in *.
  apply Z.div_pos; lia.
Qed.

Lemma floor_div_60 (x : Q) : Qfloor (x / 60) = Qfloor x / 60.
Proof.
  destruct x as [n d]. unfold Qdiv, Qmult, Qinv, Qfloor. simpl.
  rewrite Z.mul_1_r, Pos2Z.inj_mul, Z.div_div by lia. reflexivity.
Qed.

Lemma format_02_two_digits (r : Z) : 0 <= r < 60 -> Py.format_02 r = pad2 r.
Proof.
  intros H. rewrite <- (Z2Nat.id r) by lia.
  assert (Hn : (Z.to_nat r < 60)%nat) by lia.
  generalize dependent (Z.to_nat r). clear. intros n Hn.
  do 60 (destruct n as [|n]; [reflexivity|]). lia.
Qed.

(** C7: for every [seconds >= 0] the formatter returns the minutes (the
    integer quotient by 60, unbounded), a colon, and the remainder mod 60
    as exactly two digits; [0] gives "0:00", [65] gives "1:05" and [3661]
    gives "61:01". *)
Theorem convert_sec_min_format :
  (forall seconds : Q, (0 <= seconds)%Q ->
     convert_sec_min seconds = format_spec seconds) /\
  convert_sec_min 0 = "0:00" /\
  convert_sec_min 65 = "1:05" /\
  convert_sec_min 3661 = "61:01".
Proof.
  split; [| repeat split; reflexivity].
  intros seconds H. unfold convert_sec_min, format_spec, Py.floordiv, Py.mod_.
  rewrite int_nonneg_floor, floor_div_60 by exact H.
  rewrite format_02_two_digits; [reflexivity|].
  apply Z.mod_pos_bound. lia.
Qed.

Lemma convert_sec_min_format_witness :
  convert_sec_min (657 # 10) = format_spec (657 # 10).
Proof.
  apply (proj1 convert_sec_min_format (657 # 10)). discriminate.
Defined.

(** ** Running the methods *)

(** Unfolds the monad and breaks the tests met along the way. *)
Ltac unfold_monad :=
  cbv beta delta [bind ret raise try_except read assign ticks music query
                  playlist_at_index read_mp3 Exception pygame_error_only] in *.

Ltac break_tests :=
  repeat match goal with
         | |- context [match ?x with _ => _ end] =>
             lazymatch x with
             | context [match _ with _ => _ end] => fail
             | _ => destruct x eqn:?; cbn [fst snd self mixer] in *
             end
         end.

Lemma truthy_nonempty {A} (l : list A) : Py.truthy l = true <-> l <> [].
Proof. destruct l; simpl; split; congruence. Qed.

Lemma mod_len_range (i : Z) {A} (l : list A) :
  l <> [] -> 0 <= Py.mod_ i (Z.of_nat (List.length l)) < Z.of_nat (List.length l).
Proof.
  intros H. apply Z.mod_pos_bound. destruct l; [congruence | simpl; lia].
Qed.

Lemma getitem_nonempty {A} (l : list A) (i : Z) (x : A) :
  Py.getitem l i = Some x -> l <> [].
Proof.
  intros H ->. unfold Py.getitem in H. cbn in H.
  destruct (0 <=? i) eqn:E0, (i <? 0) eqn:E1; cbn in H; try discriminate;
    destruct (Z.to_nat i); discriminate.
Qed.

Lemma mod_len_nonneg (i : Z) {A} (l : list A) :
  negb (Py.truthy l) = false -> 0 <= Py.mod_ i (Z.of_nat (List.length l)).
Proof.
  intros H. apply mod_len_range. destruct l; [discriminate | congruence].
Qed.

Lemma seek_target_in_range (fraction : Q) (len : Z) :
  (0 <= fraction <= 1)%Q -> 0 <= len ->
  (0 <= fraction * inject_Z len <= inject_Z len)%Q.
Proof.
  intros [H0 H1] Hlen. split.
  - apply Qmult_le_0_compat; [exact H0 |]. unfold Qle; simpl; lia.
  - setoid_replace (inject_Z len) with (1 * inject_Z len)%Q at 2 by ring.
    apply Qmult_le_compat_r; [exact H1 |]. unfold Qle; simpl; lia.
Qed.

Lemma inject_Z_nonneg (z : Z) : 0 <= z -> (0 <= inject_Z z)%Q.
Proof. intros H. unfold Qle; simpl; lia. Qed.

(** Brings in that the length read from a file is not negative. *)
Ltac use_sane :=
  match goal with
  | Hs : sane ?env, H : MP3 ?env _ = Some ?f |- _ =>
      pose proof (int_nonneg _ (Hs _ _ H)); clear H
  end.

(** Closes one field of [Inv] after a method has been run symbolically. *)
Ltac inv_field :=
  cbn in *; intros; subst; try use_sane;
  first
    [ congruence
    | lia
    | assumption
    | apply Qle_refl
    | apply inject_Z_nonneg; (assumption || lia)
    | (apply mod_len_nonneg; assumption)
    | (eapply getitem_nonempty; eassumption)
    | (apply truthy_nonempty; cbn; congruence)
    | solve [auto]
    | solve [ match goal with
              | H : context [Py.truthy ?l] |- _ => destruct l; cbn in *; congruence
              end ]
    | solve [ repeat match goal with b : bool |- _ => destruct b end;
              cbn in *; intuition congruence ] ].

Ltac run_method :=
  unfold_monad; cbn [fst snd self mixer]; break_tests.

Ltac preserve_Inv :=
  cbn in *; run_method; constructor; solve [inv_field].

(** *** [Inv] is kept by every intent *)

Section Preservation.

Variable env : Env.
Hypothesis env_sane : sane env.

Lemma Inv_toggle_play_pause m :
  Inv (self m) -> Inv (self (snd (toggle_play_pause env m))).
Proof.
  intros []. destruct m as [s tr]. destruct s.
  unfold toggle_play_pause, _pause_music, _play_music, _song_meta_data.
  preserve_Inv.
Qed.

Lemma Inv_add_songs files m :
  Inv (self m) -> Inv (self (snd (add_songs files env m))).
Proof.
  intros []. destruct m as [s tr]. destruct s.
  unfold add_songs, _play_music, _song_meta_data.
  destruct files as [|file files]; [constructor; assumption |].
  preserve_Inv.
Qed.

Lemma Inv_next_song m :
  Inv (self m) -> Inv (self (snd (next_song env m))).
Proof.
  intros []. destruct m as [s tr]. destruct s.
  unfold next_song, _play_music, _song_meta_data.
  preserve_Inv.
Qed.

Lemma Inv_previous_song m :
  Inv (self m) -> Inv (self (snd (previous_song env m))).
Proof.
  intros []. destruct m as [s tr]. destruct s.
  unfold previous_song, _play_music, _song_meta_data.
  preserve_Inv.
Qed.

Lemma Inv_change_volume value m :
  Inv (self m) -> Inv (self (snd (change_volume value env m))).
Proof.
  intros H. unfold change_volume, music.
  destruct (backend_raises env (mixer m) (SetVolume value)); exact H.
Qed.

Lemma Inv_adjust_song fraction m :
  (0 <= fraction <= 1)%Q ->
  Inv (self m) -> Inv (self (snd (adjust_song fraction env m))).
Proof.
  intros Hf []. destruct m as [s tr]. destruct s.
  cbn in *.
  destruct (seek_target_in_range fraction song_length0 Hf inv_length0).
  unfold adjust_song.
  preserve_Inv.
Qed.

Lemma Inv_toggle_loop_mode m :
  Inv (self m) -> Inv (self (snd (toggle_loop_mode env m))).
Proof. intros []. constructor; assumption. Qed.

Lemma Inv_on_song_end m :
  Inv (self m) -> Inv (self (snd (on_song_end env m))).
Proof.
  intros H. unfold on_song_end, bind at 1, read. cbn [fst snd self mixer].
  destruct (loop_mode (self m) =? 2) eqn:E2;
    [| destruct (loop_mode (self m) =? 1) eqn:E1; [apply Inv_next_song; exact H |]].
  - destruct H. destruct m as [s tr]. destruct s.
    unfold _play_music, _song_meta_data. preserve_Inv.
  - destruct H. destruct m as [s tr]. destruct s. preserve_Inv.
Qed.

Lemma Inv_perform i m :
  in_domain i -> Inv (self m) -> Inv (self (snd (perform i env m))).
Proof.
  destruct i; cbn [perform in_domain]; intros Hd H.
  - apply Inv_add_songs, H.
  - apply Inv_toggle_play_pause, H.
  - apply Inv_next_song, H.
  - apply Inv_previous_song, H.
  - apply Inv_adjust_song; assumption.
  - apply Inv_change_volume, H.
  - apply (Inv_toggle_loop_mode m H).
  - apply Inv_on_song_end, H.
Qed.

End Preservation.

Lemma Inv_init mixer_ok : Inv (__init__ mixer_ok).
Proof. constructor; cbn; intros; try congruence; try lia; apply Qle_refl. Qed.

Theorem reachable_Inv m : reachable m -> Inv (self m).
Proof.
  induction 1 as [ok | m env i _ IH Hd Hs].
  - apply Inv_init.
  - apply Inv_perform; assumption.
Qed.

(** ** The position clock *)

Lemma min_is_Qmin (a b : Q) : Py.min a b = Qmin a b.
Proof.
  unfold Py.min, Qmin, GenericMinMax.gmin, Qle_bool, Qcompare.
  destruct (Z.leb_spec (Qnum a * QDen b) (Qnum b * QDen a)) as [H | H];
    destruct (Z.compare_spec (Qnum a * QDen b) (Qnum b * QDen a));
    (reflexivity || lia).
Qed.





Lemma studio_sane t : sane (studio t).
Proof. intros path f H. injection H as <-. discriminate. Qed.


(** ** Navigation *)

Lemma getitem_in_range {A} (l : list A) (i : Z) :
  0 <= i < Z.of_nat (List.length l) -> exists x, Py.getitem l i = Some x.
Proof.
  intros H. unfold Py.getitem.
  destruct (Z.leb_spec 0 i); [| lia].
  destruct (Z.ltb_spec i (Z.of_nat (List.length l))); [| lia]. cbn.
  destruct (nth_error l (Z.to_nat i)) eqn:E; [eauto |].
  apply nth_error_None in E. lia.
Qed.

(** One step of [next_song] or [previous_song] on an accepting backend:
    the method returns, the status is Playing and the index has moved by
    one, modulo the length. *)
Ltac skip_step Ha Hne Hp :=
  unfold accepts in Ha;
  match goal with
  | |- context [Py.mod_ (index (self ?m) + ?d) ?n] =>
      let song := fresh "song" in
      let Hsong := fresh "Hsong" in
      destruct (getitem_in_range (playlist (self m)) (Py.mod_ (index (self m) + d) n)
                  (mod_len_range _ _ Hne)) as [song Hsong];
      apply truthy_nonempty in Hne;
      destruct m as [s tr]; destruct s;
      cbn [self mixer playlist index paused AUDIO_OK] in *;
      unfold next_song, previous_song, _play_music, _song_meta_data;
      unfold_monad;
      cbn [fst snd self mixer playlist index set_index];
      rewrite Hne; cbn [negb fst snd self mixer playlist index set_index];
      try change (?i - 1) with (i + -1);
      rewrite Hsong;
      cbn [fst snd self mixer AUDIO_OK];
      match type of Hp with
      | _ -> ?b = true => destruct b
      end;
      [ cbn; rewrite !Ha; break_tests; cbn; auto
      | cbn; unfold status; cbn;
        match type of Hp with
        | ?p = true -> _ =>
            destruct p; [discriminate (Hp eq_refl) | auto 10]
        end ]
  end.

Lemma next_song_accepted env m :
  accepts env ->
  playlist (self m) <> [] ->
  (paused (self m) = true -> AUDIO_OK (self m) = true) ->
  fst (next_song env m) = Returned tt /\
  status (self (snd (next_song env m))) = Playing /\
  index (self (snd (next_song env m))) =
    Py.mod_ (index (self m) + 1) (Z.of_nat (List.length (playlist (self m)))) /\
  playlist (self (snd (next_song env m))) = playlist (self m) /\
  (paused (self (snd (next_song env m))) = true ->
   AUDIO_OK (self (snd (next_song env m))) = true).
Proof. intros Ha Hne Hp. skip_step Ha Hne Hp. Qed.

Lemma previous_song_accepted env m :
  accepts env ->
  playlist (self m) <> [] ->
  (paused (self m) = true -> AUDIO_OK (self m) = true) ->
  fst (previous_song env m) = Returned tt /\
  status (self (snd (previous_song env m))) = Playing /\
  index (self (snd (previous_song env m))) =
    Py.mod_ (index (self m) + -1) (Z.of_nat (List.length (playlist (self m)))) /\
  playlist (self (snd (previous_song env m))) = playlist (self m) /\
  (paused (self (snd (previous_song env m))) = true ->
   AUDIO_OK (self (snd (previous_song env m))) = true).
Proof. intros Ha Hne Hp. skip_step Ha Hne Hp. Qed.

Lemma mod_step_back (i n : Z) :
  0 <= i < n -> Py.mod_ (Py.mod_ (i + 1) n + -1) n = i.
Proof.
  intros H. unfold Py.mod_.
  rewrite Zplus_mod_idemp_l. replace (i + 1 + -1) with i by lia.
  apply Z.mod_small, H.
Qed.

Lemma mod_step_forth (i n : Z) :
  0 <= i < n -> Py.mod_ (Py.mod_ (i + -1) n + 1) n = i.
Proof.
  intros H. unfold Py.mod_.
  rewrite Zplus_mod_idemp_l. replace (i + -1 + 1) with i by lia.
  apply Z.mod_small, H.
Qed.

Lemma mod_wraps (n : Z) : 0 < n -> Py.mod_ (n - 1 + 1) n = 0.
Proof.
  intros H. unfold Py.mod_. replace (n - 1 + 1) with n by lia.
  apply Z.mod_same. lia.
Qed.

(** C8: on a non-empty playlist with the index in range, [next_song] then
    [previous_song], and [previous_song] then [next_song], bring the
    index back to where it started; each of the calls returns with status
    Playing; and [next_song] on the last index moves to index 0.  The
    backend is one that accepts the calls, and the state is one that
    satisfies the invariant of the reachable states. *)
Theorem next_previous_round_trip env1 env2 m :
  Inv (self m) ->
  playlist (self m) <> [] ->
  index_in_range (self m) ->
  accepts env1 -> accepts env2 ->
  let after_next := next_song env1 m in
  let back := previous_song env2 (snd after_next) in
  let after_previous := previous_song env1 m in
  let forth := next_song env2 (snd after_previous) in
  (fst after_next = Returned tt /\ status (self (snd after_next)) = Playing) /\
  (fst back = Returned tt /\ status (self (snd back)) = Playing) /\
  index (self (snd back)) = index (self m) /\
  (fst after_previous = Returned tt /\
   status (self (snd after_previous)) = Playing) /\
  (fst forth = Returned tt /\ status (self (snd forth)) = Playing) /\
  index (self (snd forth)) = index (self m) /\
  (index (self m) = Z.of_nat (List.length (playlist (self m))) - 1 ->
   index (self (snd after_next)) = 0).
Proof.
  intros HI Hne Hrange Ha1 Ha2. cbv zeta.
  pose proof (inv_paused_mixer _ HI) as Hp.
  destruct (next_song_accepted env1 m Ha1 Hne Hp) as (Hn1 & Hn2 & Hn3 & Hn4 & Hn5).
  destruct (previous_song_accepted env1 m Ha1 Hne Hp) as (Hp1 & Hp2 & Hp3 & Hp4 & Hp5).
  assert (Hne1 : playlist (self (snd (next_song env1 m))) <> []) by congruence.
  assert (Hne2 : playlist (self (snd (previous_song env1 m))) <> []) by congruence.
  destruct (previous_song_accepted env2 _ Ha2 Hne1 Hn5) as (Hb1 & Hb2 & Hb3 & _).
  destruct (next_song_accepted env2 _ Ha2 Hne2 Hp5) as (Hf1 & Hf2 & Hf3 & _).
  repeat split; try assumption.
  - rewrite Hb3, Hn3, Hn4. apply mod_step_back, Hrange.
  - rewrite Hf3, Hp3, Hp4. apply mod_step_forth, Hrange.
  - intros Hlast. rewrite Hn3, Hlast. apply mod_wraps.
    destruct Hrange. lia.
Qed.

Lemma reachable_after i env m :
  reachable m -> in_domain i -> sane env -> reachable (after i env m).
Proof. intros Hr Hd Hs. apply reach_step; assumption. Qed.

Lemma three_loaded_reachable : reachable three_loaded.
Proof.
  apply reachable_after; [apply reach_init | exact I | apply studio_sane].
Qed.

Lemma on_second_track_reachable : reachable on_second_track.
Proof.
  apply reachable_after;
    [apply three_loaded_reachable | exact I | apply studio_sane].
Qed.

Lemma on_last_track_reachable : reachable on_last_track.
Proof.
  apply reachable_after;
    [apply on_second_track_reachable | exact I | apply studio_sane].
Qed.

Lemma studio_accepts t : accepts (studio t).
Proof. intros calls c. reflexivity. Qed.

Lemma next_previous_round_trip_witness :
  index (self (snd (previous_song (studio 5000)
                      (snd (next_song (studio 4000) on_last_track))))) = 2 /\
  index (self (snd (next_song (studio 4000) on_last_track))) = 0.
Proof.
  pose proof (next_previous_round_trip (studio 4000) (studio 5000) on_last_track
                (reachable_Inv _ on_last_track_reachable)
                ltac:(vm_compute; discriminate)
                ltac:(split; [apply Z.leb_le | apply Z.ltb_lt]; vm_compute; reflexivity)
                (studio_accepts 4000) (studio_accepts 5000)) as H.
  cbv zeta in H. destruct H as (_ & _ & Hback & _ & _ & _ & Hwrap).
  split; [exact Hback | apply Hwrap; vm_compute; reflexivity].
Defined.

(** ** The end of a track *)

(** C9: with [loop_mode] 0 (Off) the end-of-track handler returns with
    status Stopped and [seek_offset] 0 and issues no backend call; with
    [loop_mode] 1 (RepeatAll) it is [next_song], which on an accepting
    backend advances the index by one modulo the length and leaves the
    status Playing. *)
Theorem on_song_end_dispatch env m :
  (loop_mode (self m) = 0 ->
   fst (on_song_end env m) = Returned tt /\
   status (self (snd (on_song_end env m))) = Stopped /\
   seek_offset (self (snd (on_song_end env m))) = 0%Q /\
   mixer (snd (on_song_end env m)) = mixer m) /\
  (loop_mode (self m) = 1 ->
   on_song_end env m = next_song env m /\
   (Inv (self m) -> playlist (self m) <> [] -> accepts env ->
    fst (on_song_end env m) = Returned tt /\
    status (self (snd (on_song_end env m))) = Playing /\
    index (self (snd (on_song_end env m))) =
      Py.mod_ (index (self m) + 1) (Z.of_nat (List.length (playlist (self m)))))).
Proof.
  split; intros Hmode.
  - unfold on_song_end. unfold_monad. cbn [fst snd self mixer].
    rewrite Hmode. cbn. auto.
  - assert (E : on_song_end env m = next_song env m).
    { unfold on_song_end, bind at 1, read. cbn [fst snd self mixer].
      rewrite Hmode. reflexivity. }
    split; [exact E |]. intros HI Hne Ha. rewrite E.
    destruct (next_song_accepted env m Ha Hne (inv_paused_mixer _ HI))
      as (H1 & H2 & H3 & _).
    auto.
Qed.

Lemma on_song_end_dispatch_witness :
  status (self (snd (on_song_end (studio 181000) three_loaded))) = Stopped /\
  mixer (snd (on_song_end (studio 181000) three_loaded)) = mixer three_loaded.
Proof.
  destruct (proj1 (on_song_end_dispatch (studio 181000) three_loaded) eq_refl)
    as (_ & Hs & _ & Hm).
  split; [exact Hs | exact Hm].
Defined.

(** Settles a conjunction of closed facts by running the model. *)
Ltac by_running :=
  repeat match goal with |- _ /\ _ => split end; vm_compute; reflexivity.

(** ** Metadata *)

(** The failure path in general: when reading the metadata of the current
    track fails, [_song_meta_data] returns without raising and assigns
    nothing, so the title, artist, formatted length and [song_length] are
    whatever they were before the call. *)
Theorem song_meta_data_failure_keeps_fields env m :
  extraction_fails env (self m) -> _song_meta_data env m = (Returned tt, m).
Proof.
  intros Hfail. unfold extraction_fails in Hfail.
  unfold _song_meta_data. unfold_monad.
  destruct (Py.getitem (playlist (self m)) (index (self m))) as [path |];
    [| reflexivity].
  rewrite (Hfail path eq_refl). reflexivity.
Qed.

Lemma unreadable_fails t s : extraction_fails (unreadable t) s.
Proof. intros path _. reflexivity. Qed.

Lemma song_meta_data_failure_keeps_fields_witness :
  _song_meta_data (unreadable 2000) three_loaded = (Returned tt, three_loaded).
Proof.
  apply (song_meta_data_failure_keeps_fields (unreadable 2000) three_loaded).
  apply unreadable_fails.
Defined.

(** C3, on the code: the resolver does not fall back on "", "", 0.  With
    the first track resolved, a failing read returns without raising and
    leaves that track's title and length in place; met on the way to the
    next track, the window goes on showing the first track's title and
    length under index 1. *)
Lemma song_meta_data_failure_is_stale :
  extraction_fails (unreadable 2000) (self three_loaded) /\
  fst (_song_meta_data (unreadable 2000) three_loaded) = Returned tt /\
  current_song_title (self (snd (_song_meta_data (unreadable 2000) three_loaded)))
    = "Title of a.mp3" /\
  song_length (self (snd (_song_meta_data (unreadable 2000) three_loaded))) = 180 /\
  index (self (after next (unreadable 2000) three_loaded)) = 1 /\
  current_song_title (self (after next (unreadable 2000) three_loaded))
    = "Title of a.mp3" /\
  current_song_length (self (after next (unreadable 2000) three_loaded)) = "3:00" /\
  song_length (self (after next (unreadable 2000) three_loaded)) = 180.
Proof.
  split; [apply unreadable_fails |].
  by_running.
Qed.

(** ** Seeking *)

(** The rejected seek in general: [adjust_song] returns without raising,
    and the anchor, assigned before the backend call, holds the target
    position and the current ticks; nothing else of the object changes. *)
Theorem adjust_song_rejected fraction env m :
  playlist (self m) <> [] ->
  song_length (self m) <> 0 ->
  backend_raises env (mixer m)
    (SetPos (fraction * inject_Z (song_length (self m)))) = true ->
  adjust_song fraction env m =
  (Returned tt,
   mkMachine
     (set_last_update_time (get_ticks env)
        (set_seek_offset (fraction * inject_Z (song_length (self m))) (self m)))
     (mixer m ++ [SetPos (fraction * inject_Z (song_length (self m)))])).
Proof.
  intros Hne Hlen Hraise. apply truthy_nonempty in Hne. apply Z.eqb_neq in Hlen.
  unfold adjust_song. unfold_monad. cbn [fst snd self mixer].
  rewrite Hne, Hlen. cbn [negb orb fst snd self mixer].
  rewrite Hraise. reflexivity.
Qed.

Lemma adjust_song_rejected_witness :
  adjust_song (1 # 2) (no_seek 5000) three_loaded =
  (Returned tt,
   mkMachine
     (set_last_update_time 5000
        (set_seek_offset ((1 # 2) * inject_Z 180) (self three_loaded)))
     (mixer three_loaded ++ [SetPos ((1 # 2) * inject_Z 180)])).
Proof.
  apply (adjust_song_rejected (1 # 2) (no_seek 5000) three_loaded).
  - vm_compute. discriminate.
  - vm_compute. discriminate.
  - reflexivity.
Defined.

(** C4, on the code: a rejected [set_pos] does not leave the anchor alone.
    The seek to the middle of a track loaded at tick 1000 is rejected, the
    call returns, and the anchor has moved from (0, 1000) to (90, 5000). *)
Lemma adjust_song_rejected_moves_anchor :
  backend_raises (no_seek 5000) (mixer three_loaded) (SetPos ((1 # 2) * inject_Z 180))
    = true /\
  fst (adjust_song (1 # 2) (no_seek 5000) three_loaded) = Returned tt /\
  seek_offset (self three_loaded) = 0%Q /\
  last_update_time (self three_loaded) = 1000 /\
  (seek_offset (self (snd (adjust_song (1 # 2) (no_seek 5000) three_loaded))) == 90)%Q /\
  last_update_time (self (snd (adjust_song (1 # 2) (no_seek 5000) three_loaded)))
    = 5000.
Proof. by_running. Qed.

(** ** Loading a playlist *)

Lemma add_songs_index files env m :
  index (self (snd (add_songs files env m))) = index (self m).
Proof.
  destruct m as [s tr]. destruct s.
  unfold add_songs, _play_music, _song_meta_data.
  destruct files as [| file files]; [reflexivity |].
  cbn in *. run_method; reflexivity.
Qed.

(** C1, on the code: [add_songs] replaces the playlist and never assigns
    [index].  With the last of three tracks current, selecting one file
    raises [IndexError] before any backend call; with the second of
    three current, selecting two files loads and plays the second of them
    and the index stays 1. *)
Theorem add_songs_keeps_index :
  (forall files env m,
      index (self (snd (add_songs files env m))) = index (self m)) /\
  index (self on_last_track) = 2 /\
  add_songs ["x.mp3"] (studio 4000) on_last_track =
    (Raised IndexError,
     mkMachine (set_playlist ["x.mp3"] (self on_last_track)) (mixer on_last_track)) /\
  index (self on_second_track) = 1 /\
  fst (add_songs ["x.mp3"; "y.mp3"] (studio 4000) on_second_track) = Returned tt /\
  index (self (snd (add_songs ["x.mp3"; "y.mp3"] (studio 4000) on_second_track)))
    = 1 /\
  mixer (snd (add_songs ["x.mp3"; "y.mp3"] (studio 4000) on_second_track)) =
    (mixer on_second_track ++ [Load "y.mp3"; Play])%list.
Proof.
  split; [exact add_songs_index |].
  by_running.
Qed.

(** ** The state invariant *)

Lemma getitem_bound {A} (l : list A) (i : Z) (x : A) :
  Py.getitem l i = Some x -> 0 <= i -> 0 <= i < Z.of_nat (List.length l).
Proof.
  unfold Py.getitem. intros H H0.
  destruct (Z.leb_spec 0 i); [| lia].
  destruct (Z.ltb_spec i (Z.of_nat (List.length l))); [lia |].
  destruct (Z.ltb_spec i 0); [lia |].
  cbn in H. rewrite andb_false_r in H. discriminate.
Qed.

Lemma add_songs_playlist files env m :
  playlist (self (snd (add_songs files env m))) =
  if Py.truthy files then files else playlist (self m).
Proof.
  destruct m as [s tr]. destruct s.
  unfold add_songs, _play_music, _song_meta_data.
  destruct files as [| file files]; [reflexivity |].
  cbn in *. run_method; reflexivity.
Qed.

Lemma add_songs_returned files env m :
  Py.truthy files = true ->
  fst (add_songs files env m) = Returned tt ->
  exists song, Py.getitem files (index (self m)) = Some song.
Proof.
  intros Hf. unfold add_songs. rewrite Hf. unfold_monad.
  cbn [fst snd self mixer].
  destruct m as [s tr]. destruct s. cbn [self mixer playlist index set_playlist].
  destruct (Py.getitem files index0) as [song |]; [eauto | discriminate].
Qed.

Ltac index_leaf :=
  cbn in *;
  first
    [ assumption
    | (intros _; apply mod_len_range; apply truthy_nonempty;
       match goal with
       | H : negb (Py.truthy ?l) = false |- _ =>
           destruct l; [discriminate H | reflexivity]
       end) ].

Ltac keep_index := cbn in *; run_method; solve [index_leaf].

(** Every intent that returns keeps the index inside a non-empty
    playlist; every intent but [loadPlaylist] does so even when it raises. *)
Lemma valid_index_perform i env m :
  Inv (self m) ->
  valid_index (self m) ->
  (forall files, i = loadPlaylist files -> fst (perform i env m) = Returned tt) ->
  valid_index (self (snd (perform i env m))).
Proof.
  intros HI Hv Hret. pose proof (inv_index _ HI) as H0.
  unfold valid_index, index_in_range in *.
  destruct i; cbn [perform] in *.
  - specialize (Hret files eq_refl).
    rewrite add_songs_index, add_songs_playlist.
    destruct (Py.truthy files) eqn:Ef; [| exact Hv].
    destruct (add_songs_returned files env m Ef Hret) as [song Hsong].
    intros _. eapply getitem_bound; eassumption.
  - clear Hret. destruct m as [s tr]. destruct s. cbn [self playlist index] in *.
    unfold toggle_play_pause, _pause_music, _play_music, _song_meta_data.
    keep_index.
  - clear Hret. destruct m as [s tr]. destruct s. cbn [self playlist index] in *.
    unfold next_song, _play_music, _song_meta_data. keep_index.
  - clear Hret. destruct m as [s tr]. destruct s. cbn [self playlist index] in *.
    unfold previous_song, _play_music, _song_meta_data. keep_index.
  - clear Hret. destruct m as [s tr]. destruct s. cbn [self playlist index] in *.
    unfold adjust_song. keep_index.
  - clear Hret. destruct m as [s tr]. destruct s. cbn [self playlist index] in *.
    unfold change_volume. keep_index.
  - exact Hv.
  - clear Hret. destruct m as [s tr]. destruct s. cbn [self playlist index] in *.
    unfold on_song_end, next_song, _play_music, _song_meta_data. keep_index.
Qed.


(** C10, on the code: the flags part of the invariant holds in every
    reachable state ([reachable_flags]), the index part does not.  With the
    last of three tracks playing, selecting a single file leaves a
    reachable state whose status is Playing and whose index, 2, is outside
    the one-track playlist. *)
Theorem add_songs_breaks_index_invariant :
  reachable on_last_track /\
  status (self on_last_track) = Playing /\
  index (self on_last_track) = 2 /\
  List.length (playlist (self on_last_track)) = 3%nat /\
  reachable (after (loadPlaylist ["x.mp3"]) (studio 4000) on_last_track) /\
  fst (perform (loadPlaylist ["x.mp3"]) (studio 4000) on_last_track)
    = Raised IndexError /\
  status (self (after (loadPlaylist ["x.mp3"]) (studio 4000) on_last_track))
    = Playing /\
  index (self (after (loadPlaylist ["x.mp3"]) (studio 4000) on_last_track)) = 2 /\
  List.length
    (playlist (self (after (loadPlaylist ["x.mp3"]) (studio 4000) on_last_track)))
    = 1%nat.
Proof.
  split; [apply on_last_track_reachable |].
  do 3 (split; [vm_compute; reflexivity |]).
  split.
  - apply reachable_after;
      [apply on_last_track_reachable | exact I | apply studio_sane].
  - by_running.
Qed.

(** ** Pause and resume *)

(** Resuming from pause: one [unpause] call and two flags; the anchor is
    not touched. *)
Lemma toggle_resume env m :
  playlist (self m) <> [] ->
  is_playing (self m) = false ->
  paused (self m) = true ->
  backend_raises env (mixer m) Unpause = false ->
  toggle_play_pause env m =
  (Returned tt,
   mkMachine
     (set_current_icon pause_bnt (set_is_playing true (set_paused false (self m))))
     (mixer m ++ [Unpause])).
Proof.
  intros Hne Hplay Hpaused Hok. apply truthy_nonempty in Hne.
  destruct m as [s tr]. destruct s.
  cbn [self mixer playlist is_playing paused] in *. subst.
  unfold toggle_play_pause. unfold_monad.
  cbn [fst snd self mixer playlist is_playing paused].
  rewrite Hne. cbn [negb fst snd self mixer playlist is_playing paused].
  rewrite Hok. reflexivity.
Qed.

(** C2, on the code: a track is loaded at tick 1000, paused at tick 6000
    and resumed at tick 60000.  The resume is a bare [unpause]:
    [seek_offset] and [last_update_time] keep the values of the load, so
    the position reported right after the resume is 59 seconds, while it
    was 0 during the pause. *)
Theorem resume_keeps_the_old_anchor :
  status (self one_paused) = Paused /\
  fst (toggle_play_pause (studio 60000) one_paused) = Returned tt /\
  status (self one_resumed) = Playing /\
  mixer one_resumed = (mixer one_paused ++ [Unpause])%list /\
  seek_offset (self one_resumed) = seek_offset (self one_paused) /\
  last_update_time (self one_paused) = 1000 /\
  last_update_time (self one_resumed) = 1000 /\
  (get_current_position (studio 60000) (self one_paused) == 0)%Q /\
  (get_current_position (studio 60000) (self one_resumed) == 59)%Q.
Proof. by_running. Qed.

(** ** A mixer that failed to initialise *)

(** With [AUDIO_OK] false, in a state that satisfies the invariant, no
    intent but [setVolume] reaches the backend. *)
Lemma no_mixer_no_calls i env m :
  Inv (self m) ->
  AUDIO_OK (self m) = false ->
  (forall volume, i <> setVolume volume) ->
  mixer (snd (perform i env m)) = mixer m.
Proof.
  intros [_ Hp _ Hl _ _ _ _] Hok Hi.
  destruct m as [s tr]. destruct s. cbn [self AUDIO_OK paused song_length] in *.
  subst AUDIO_OK0. specialize (Hl eq_refl). subst song_length0.
  destruct paused0; [discriminate (Hp eq_refl) | clear Hp].
  destruct i; cbn [perform].
  - unfold add_songs, _play_music. destruct files; [reflexivity |].
    cbn. run_method; cbn in *; (discriminate || reflexivity).
  - unfold toggle_play_pause, _pause_music, _play_music.
    cbn. run_method; cbn in *; (discriminate || reflexivity).
  - unfold next_song, _play_music. cbn. run_method; cbn in *; (discriminate || reflexivity).
  - unfold previous_song, _play_music. cbn. run_method; cbn in *; (discriminate || reflexivity).
  - unfold adjust_song. unfold_monad. cbn [fst snd self mixer song_length].
    rewrite orb_true_r. reflexivity.
  - destruct (Hi volume eq_refl).
  - reflexivity.
  - unfold on_song_end, next_song, _play_music. cbn. run_method; cbn in *; (discriminate || reflexivity).
Qed.

Lemma change_volume_calls volume env m :
  mixer (snd (change_volume volume env m)) = (mixer m ++ [SetVolume volume])%list.
Proof.
  unfold change_volume, music.
  destruct (backend_raises env (mixer m) (SetVolume volume)); reflexivity.
Qed.

(** C5, on the code: [change_volume] calls the backend whatever
    [AUDIO_OK] says, and the call's [pygame.error] reaches the caller;
    [toggle_play_pause] makes no backend call in that state but flips the
    status from Playing to Stopped. *)
Theorem no_mixer_not_disabled :
  (forall volume env m,
      mixer (snd (change_volume volume env m)) =
      (mixer m ++ [SetVolume volume])%list) /\
  reachable no_mixer_loaded /\
  AUDIO_OK (self no_mixer_loaded) = false /\
  mixer no_mixer_loaded = [] /\
  change_volume (1 # 2) (dead_mixer 2000) no_mixer_loaded =
    (Raised pygame_error,
     mkMachine (self no_mixer_loaded) [SetVolume (1 # 2)]) /\
  status (self no_mixer_loaded) = Playing /\
  fst (toggle_play_pause (studio 2000) no_mixer_loaded) = Returned tt /\
  mixer (after togglePlayPause (studio 2000) no_mixer_loaded) = [] /\
  status (self (after togglePlayPause (studio 2000) no_mixer_loaded)) = Stopped.
Proof.
  split; [exact change_volume_calls |].
  split.
  - apply reachable_after; [apply reach_init | exact I | apply studio_sane].
  - by_running.
Qed.

(** * Further properties of the playback core *)

(** ** What an intent leaves alone *)

Ltac frame_case :=
  intros;
  first
    [ match goal with
      | H : forall x, _ <> _ |- _ => solve [destruct (H _ eq_refl)]
      | H : ?x <> ?x |- _ => solve [destruct (H eq_refl)]
      end
    | cbn in *; run_method; cbn in *;
      solve [reflexivity | discriminate | congruence] ].

(** [AUDIO_OK] is fixed at construction; only [loadPlaylist] changes the
    playlist, only [cycleLoopMode] the loop mode, and only [next],
    [previous] and the end-of-track signal the index. *)
Theorem intents_frame i env m :
  AUDIO_OK (self (after i env m)) = AUDIO_OK (self m) /\
  ((forall files, i <> loadPlaylist files) ->
   playlist (self (after i env m)) = playlist (self m)) /\
  (i <> cycleLoopMode ->
   loop_mode (self (after i env m)) = loop_mode (self m)) /\
  (i <> next -> i <> previous -> i <> onTrackNaturallyEnded ->
   index (self (after i env m)) = index (self m)).
Proof.
  destruct m as [s tr]. destruct s. unfold after.
  destruct i; cbn [perform];
    unfold add_songs, toggle_play_pause, next_song, previous_song, adjust_song,
      change_volume, toggle_loop_mode, on_song_end, next_song, _pause_music,
      _play_music, _song_meta_data;
    try (destruct files as [| file files]);
    (split; [frame_case | split; [frame_case | split; frame_case]]).
Qed.

(** Settles a closed [a <= x < b] by running the model. *)
Ltac range_by_running :=
  split; [apply Z.leb_le | apply Z.ltb_lt]; vm_compute; reflexivity.

(** ** Loop modes *)

Lemma cycle_once env m :
  after cycleLoopMode env m =
  mkMachine (set_loop_mode (Py.mod_ (loop_mode (self m) + 1) 3) (self m)) (mixer m).
Proof. reflexivity. Qed.

Lemma perform_all_app events1 events2 m :
  perform_all (events1 ++ events2) m = perform_all events2 (perform_all events1 m).
Proof.
  revert m. induction events1 as [| [i env] rest IH]; intros m; cbn;
    [reflexivity | apply IH].
Qed.

Lemma set_loop_mode_same s : set_loop_mode (loop_mode s) s = s.
Proof. destruct s. reflexivity. Qed.

Lemma set_loop_mode_twice a b s :
  set_loop_mode a (set_loop_mode b s) = set_loop_mode a s.
Proof. reflexivity. Qed.

(** [toggle_loop_mode] returns the mode it has just set; pressing the loop
    button [n] times from a mode in 0..2 advances the mode by [n] modulo 3
    and touches nothing else, so three presses give the machine back. *)
Theorem loop_mode_cycles env envs m :
  0 <= loop_mode (self m) < 3 ->
  fst (toggle_loop_mode env m) = Returned (Py.mod_ (loop_mode (self m) + 1) 3) /\
  perform_all (repeated cycleLoopMode envs) m =
    mkMachine
      (set_loop_mode
         (Py.mod_ (loop_mode (self m) + Z.of_nat (List.length envs)) 3) (self m))
      (mixer m) /\
  (List.length envs = 3%nat -> perform_all (repeated cycleLoopMode envs) m = m).
Proof.
  intros Hmode.
  assert (Hall : forall envs m, 0 <= loop_mode (self m) < 3 ->
            perform_all (repeated cycleLoopMode envs) m =
            mkMachine
              (set_loop_mode
                 (Py.mod_ (loop_mode (self m) + Z.of_nat (List.length envs)) 3)
                 (self m))
              (mixer m)).
  { clear. induction envs as [| env envs IH]; intros m Hmode.
    - cbn [repeated map perform_all List.length Z.of_nat]. unfold Py.mod_.
      rewrite Z.add_0_r, Z.mod_small by exact Hmode.
      rewrite set_loop_mode_same. destruct m; reflexivity.
    - cbn [repeated map perform_all]. fold (repeated cycleLoopMode envs).
      rewrite cycle_once, IH.
      + cbn [self mixer]. rewrite set_loop_mode_twice. f_equal. f_equal.
        destruct m as [s tr]; destruct s; cbn. unfold Py.mod_.
        rewrite Zplus_mod_idemp_l. f_equal. lia.
      + destruct m as [s tr]; destruct s; cbn. apply Z.mod_pos_bound. lia. }
  split; [reflexivity |]. split; [apply Hall, Hmode |].
  intros H3. rewrite Hall, H3 by exact Hmode. unfold Py.mod_.
  change (Z.of_nat 3) with 3. rewrite <- (Z.mul_1_l 3) at 1.
  rewrite Z.mod_add, Z.mod_small by lia.
  rewrite set_loop_mode_same. destruct m; reflexivity.
Qed.

Lemma loop_mode_cycles_witness :
  perform_all
    (repeated cycleLoopMode [studio 1; studio 2; studio 3]) three_loaded
  = three_loaded.
Proof.
  apply (loop_mode_cycles (studio 0) [studio 1; studio 2; studio 3] three_loaded).
  - range_by_running.
  - reflexivity.
Defined.




(** ** An empty playlist *)

(** With no track loaded, play/pause, next, previous, seeking, an empty
    file selection and the end-of-track signal in loop-all mode return
    without touching the object or the backend. *)
Theorem empty_playlist_noop i env m :
  playlist (self m) = [] ->
  i = togglePlayPause \/ i = next \/ i = previous \/ (exists f, i = seek f) \/
  i = loadPlaylist [] \/ (i = onTrackNaturallyEnded /\ loop_mode (self m) = 1) ->
  perform i env m = (Returned tt, m).
Proof.
  intros Hpl Hi. destruct m as [s tr]. destruct s. cbn in Hpl. subst.
  destruct Hi as [-> | [-> | [-> | [[f ->] | [-> | [-> Hm]]]]]];
    try reflexivity.
  cbn in Hm. subst. reflexivity.
Qed.

Lemma empty_playlist_noop_witness :
  perform (seek (1 # 2)) (studio 10) (fresh true) = (Returned tt, fresh true).
Proof.
  apply (empty_playlist_noop (seek (1 # 2)) (studio 10) (fresh true)).
  - reflexivity.
  - right. right. right. left. exists (1 # 2). reflexivity.
Defined.

Lemma getitem_nil {A} (i : Z) : Py.getitem (@nil A) i = None.
Proof.
  destruct (Py.getitem (@nil A) i) eqn:E; [| reflexivity].
  destruct (getitem_nonempty _ _ _ E eq_refl).
Qed.

(** In loop-one mode the end-of-track signal on an empty playlist raises
    [IndexError] (the subscript is not guarded), leaving everything as it
    was. *)
Theorem on_song_end_repeat_one_empty env m :
  playlist (self m) = [] -> loop_mode (self m) = 2 ->
  on_song_end env m = (Raised IndexError, m).
Proof.
  intros Hpl Hm. unfold on_song_end. unfold_monad. cbn [fst snd self mixer].
  rewrite Hm. cbn [Z.eqb Pos.eqb fst snd self mixer]. rewrite Hpl, getitem_nil.
  reflexivity.
Qed.

Lemma on_song_end_repeat_one_empty_witness :
  on_song_end (studio 10)
    (perform_all (repeated cycleLoopMode [studio 1; studio 2]) (fresh true))
  = (Raised IndexError,
     perform_all (repeated cycleLoopMode [studio 1; studio 2]) (fresh true)).
Proof.
  apply (on_song_end_repeat_one_empty (studio 10)); reflexivity.
Defined.

(** ** Skipping through the playlist *)

Ltac skip_any_backend :=
  intros Hne; apply truthy_nonempty in Hne;
  match goal with
  | |- context [after _ _ ?m] => destruct m as [s tr]; destruct s
  end;
  unfold after; cbn [perform];
  unfold next_song, previous_song, _play_music, _song_meta_data;
  cbn in *; run_method; cbn in *;
  solve [ split; reflexivity
        | discriminate
        | congruence
        | match goal with
          | H : negb (Py.truthy _) = true |- _ =>
              rewrite Hne in H; discriminate H
          end ].

Lemma next_any_backend env m :
  playlist (self m) <> [] ->
  index (self (after next env m)) =
    Py.mod_ (index (self m) + 1) (Z.of_nat (List.length (playlist (self m)))) /\
  playlist (self (after next env m)) = playlist (self m).
Proof. skip_any_backend. Qed.

Lemma previous_any_backend env m :
  playlist (self m) <> [] ->
  index (self (after previous env m)) =
    Py.mod_ (index (self m) - 1) (Z.of_nat (List.length (playlist (self m)))) /\
  playlist (self (after previous env m)) = playlist (self m).
Proof. skip_any_backend. Qed.

(** Whatever the backend answers (also when the load is rejected and the
    method raises), [n] presses of next move the index forward by [n]
    modulo the length of the playlist and [n] presses of previous move it
    back by [n]; as many presses as there are tracks bring it back. *)
Theorem skip_moves_index envs m :
  playlist (self m) <> [] ->
  index_in_range (self m) ->
  let len := Z.of_nat (List.length (playlist (self m))) in
  let n := Z.of_nat (List.length envs) in
  index (self (perform_all (repeated next envs) m))
    = Py.mod_ (index (self m) + n) len /\
  index (self (perform_all (repeated previous envs) m))
    = Py.mod_ (index (self m) - n) len /\
  (n = len ->
   index (self (perform_all (repeated next envs) m)) = index (self m) /\
   index (self (perform_all (repeated previous envs) m)) = index (self m)).
Proof.
  intros Hne Hin. cbv zeta.
  assert (Hnext : forall envs m, playlist (self m) <> [] -> index_in_range (self m) ->
            index (self (perform_all (repeated next envs) m)) =
            Py.mod_ (index (self m) + Z.of_nat (List.length envs))
              (Z.of_nat (List.length (playlist (self m))))).
  { clear. induction envs as [| env envs IH]; intros m Hne Hin.
    - cbn. unfold Py.mod_. rewrite Z.add_0_r. symmetry. apply Z.mod_small, Hin.
    - cbn [repeated map perform_all]. fold (repeated next envs).
      destruct (next_any_backend env m Hne) as [Hi Hp].
      rewrite IH; rewrite ?Hp, ?Hi; try assumption.
      + unfold Py.mod_. rewrite Zplus_mod_idemp_l. f_equal.
        cbn [List.length]. lia.
      + unfold index_in_range. rewrite Hi, Hp. apply mod_len_range, Hne. }
  assert (Hprev : forall envs m, playlist (self m) <> [] -> index_in_range (self m) ->
            index (self (perform_all (repeated previous envs) m)) =
            Py.mod_ (index (self m) - Z.of_nat (List.length envs))
              (Z.of_nat (List.length (playlist (self m))))).
  { clear. induction envs as [| env envs IH]; intros m Hne Hin.
    - cbn. unfold Py.mod_. rewrite Z.sub_0_r. symmetry. apply Z.mod_small, Hin.
    - cbn [repeated map perform_all]. fold (repeated previous envs).
      destruct (previous_any_backend env m Hne) as [Hi Hp].
      rewrite IH; rewrite ?Hp, ?Hi; try assumption.
      + unfold Py.mod_. rewrite Zminus_mod_idemp_l. f_equal.
        cbn [List.length]. lia.
      + unfold index_in_range. rewrite Hi, Hp. apply mod_len_range, Hne. }
  split; [apply Hnext; assumption |]. split; [apply Hprev; assumption |].
  intros Hn. rewrite Hnext, Hprev, Hn by assumption. unfold Py.mod_.
  assert (Hpos : 0 < Z.of_nat (List.length (playlist (self m)))).
  { destruct Hin. lia. }
  split.
  - rewrite <- (Z.mul_1_l (Z.of_nat _)) at 1.
    rewrite Z.mod_add by lia. apply Z.mod_small, Hin.
  - replace (index (self m) - Z.of_nat (List.length (playlist (self m))))
      with (index (self m) + (-1) * Z.of_nat (List.length (playlist (self m))))
      by lia.
    rewrite Z.mod_add by lia. apply Z.mod_small, Hin.
Qed.

Lemma skip_moves_index_witness :
  index (self (perform_all
                 (repeated next [dead_mixer 1; studio 2; dead_mixer 3])
                 on_second_track)) = 1.
Proof.
  refine (proj1 (proj2 (proj2 (skip_moves_index
            [dead_mixer 1; studio 2; dead_mixer 3] on_second_track _ _)) _)).
  - vm_compute. discriminate.
  - range_by_running.
  - vm_compute. reflexivity.
Defined.

(** A rejected load: [next_song] raises [pygame.error] after it has moved
    the index; the flags, the anchor and the metadata are those of the
    track before. *)
Theorem next_song_load_rejected env m song :
  playlist (self m) <> [] ->
  AUDIO_OK (self m) = true ->
  Py.getitem (playlist (self m))
    (Py.mod_ (index (self m) + 1) (Z.of_nat (List.length (playlist (self m)))))
    = Some song ->
  backend_raises env (mixer m) (Load song) = true ->
  next_song env m =
  (Raised pygame_error,
   mkMachine
     (set_index
        (Py.mod_ (index (self m) + 1) (Z.of_nat (List.length (playlist (self m)))))
        (self m))
     (mixer m ++ [Load song])).
Proof.
  intros Hne Hok Hsong Hraise. apply truthy_nonempty in Hne.
  destruct m as [s tr]. destruct s.
  cbn [self mixer playlist index AUDIO_OK] in *. subst.
  unfold next_song, _play_music. unfold_monad.
  cbn [fst snd self mixer playlist index set_index].
  rewrite Hne. cbn [negb fst snd self mixer playlist index set_index].
  rewrite Hsong. cbn [fst snd self mixer AUDIO_OK set_index].
  rewrite Hraise. reflexivity.
Qed.

Lemma next_song_load_rejected_witness :
  next_song (dead_mixer 2000) three_loaded =
  (Raised pygame_error,
   mkMachine (set_index 1 (self three_loaded))
     (mixer three_loaded ++ [Load "b.mp3"])).
Proof.
  apply (next_song_load_rejected (dead_mixer 2000) three_loaded "b.mp3").
  - vm_compute. discriminate.
  - vm_compute. reflexivity.
  - vm_compute. reflexivity.
  - reflexivity.
Defined.

(** ** Seeking on a backend that accepts *)

(** Leaves of a symbolic run: a rejected call contradicts an accepting
    backend; otherwise the fields are read off. *)
Ltac accepted_leaf Ha :=
  cbn in *;
  first
    [ discriminate
    | match goal with
      | H : backend_raises _ _ _ = true |- _ => rewrite Ha in H; discriminate H
      end
    | repeat match goal with |- _ /\ _ => split end;
      first [ reflexivity
            | (rewrite <- ?app_assoc; reflexivity)
            | assumption
            | congruence ] ].

Lemma min_at_anchor (target len : Q) (t : Z) :
  (target <= len)%Q -> (Py.min (target + inject_Z (t - t) / 1000) len == target)%Q.
Proof.
  intros H. rewrite min_is_Qmin, Z.sub_diag.
  assert (E : (target + inject_Z 0 / 1000 == target)%Q) by (unfold inject_Z; field).
  rewrite E. apply Q.min_l, H.
Qed.

(** An accepted seek, whatever the status before (Playing, Paused or
    Stopped): the anchor is (fraction x length, now), the status is
    Playing, the position read at the same tick is the target, and the
    backend got [set_pos], followed by [play(start=...)] unless the track
    was already playing. *)
Theorem adjust_song_accepted fraction env m :
  Inv (self m) ->
  playlist (self m) <> [] ->
  song_length (self m) <> 0 ->
  accepts env ->
  (0 <= fraction <= 1)%Q ->
  let target := (fraction * inject_Z (song_length (self m)))%Q in
  fst (adjust_song fraction env m) = Returned tt /\
  status (self (snd (adjust_song fraction env m))) = Playing /\
  seek_offset (self (snd (adjust_song fraction env m))) = target /\
  last_update_time (self (snd (adjust_song fraction env m))) = get_ticks env /\
  mixer (snd (adjust_song fraction env m)) =
    (mixer m ++
     SetPos target :: (if is_playing (self m) then [] else [PlayFrom target]))%list /\
  (get_current_position env (self (snd (adjust_song fraction env m))) == target)%Q.
Proof.
  intros HI Hne Hlen Ha Hf. cbv zeta.
  pose proof (seek_target_in_range fraction _ Hf (inv_length _ HI)) as [_ Hle].
  pose proof (inv_exclusive _ HI) as Hx.
  apply truthy_nonempty in Hne. apply Z.eqb_neq in Hlen. unfold accepts in Ha.
  destruct m as [s tr]. destruct s.
  cbn [self mixer playlist song_length is_playing paused] in *.
  unfold adjust_song. unfold_monad.
  cbn [fst snd self mixer playlist song_length].
  rewrite Hne, Hlen. cbn [negb orb fst snd self mixer]. rewrite !Ha.
  cbn [fst snd self mixer is_playing set_seek_offset set_last_update_time].
  destruct is_playing0; cbn [negb fst snd self mixer].
  - destruct paused0; [discriminate Hx |].
    cbn. repeat split; try reflexivity.
    unfold get_current_position. cbn. apply min_at_anchor, Hle.
  - rewrite !Ha. cbn. unfold status. cbn. repeat split; try reflexivity.
    + rewrite <- app_assoc. reflexivity.
    + unfold get_current_position. cbn. apply min_at_anchor, Hle.
Qed.

Lemma adjust_song_accepted_witness :
  status (self (snd (adjust_song (1 # 4) (studio 9000) one_paused))) = Playing /\
  (get_current_position (studio 9000)
     (self (snd (adjust_song (1 # 4) (studio 9000) one_paused)))
   == (1 # 4) * inject_Z 180)%Q.
Proof.
  assert (Hr : reachable one_paused).
  { repeat (apply reachable_after;
            [| exact I | apply studio_sane]). apply reach_init. }
  pose proof (adjust_song_accepted (1 # 4) (studio 9000) one_paused
                (reachable_Inv _ Hr)
                ltac:(vm_compute; discriminate)
                ltac:(vm_compute; discriminate)
                (studio_accepts 9000)
                ltac:(split; discriminate)) as H.
  cbv zeta in H. destruct H as (_ & Hs & _ & _ & _ & Hp).
  split; [exact Hs | exact Hp].
Defined.

(** In a reachable state a seek never calls [unpause]: a paused track has
    [is_playing] false, so the seek restarts it with [play(start=...)],
    and the [unpause] branch is not taken. *)
Theorem adjust_song_never_unpauses fraction env m :
  Inv (self m) ->
  exists calls,
    mixer (snd (adjust_song fraction env m)) = (mixer m ++ calls)%list /\
    ~ In Unpause calls.
Proof.
  intros HI. pose proof (inv_exclusive _ HI) as Hx.
  destruct m as [s tr]. destruct s. cbn [self is_playing paused] in Hx.
  destruct is_playing0, paused0; try discriminate Hx;
    unfold adjust_song; cbn in *; run_method; cbn in *; try discriminate;
    rewrite <- ?app_assoc; cbn [app];
    first [ (eexists; split; [reflexivity | cbn; intuition discriminate])
          | (exists []; split; [symmetry; apply app_nil_r | intros []]) ].
Qed.

Lemma adjust_song_never_unpauses_witness :
  exists calls,
    mixer (snd (adjust_song (1 # 4) (studio 9000) one_paused))
      = (mixer one_paused ++ calls)%list /\
    ~ In Unpause calls.
Proof.
  apply (adjust_song_never_unpauses (1 # 4) (studio 9000) one_paused).
  apply reachable_Inv.
  repeat (apply reachable_after; [| exact I | apply studio_sane]).
  apply reach_init.
Defined.

(** ** Play and pause *)

(** Pausing never raises, whatever the backend does, and leaves the anchor
    alone.  With a mixer, [pause] is called once: accepted, the status is
    Paused; rejected, the flag [paused] is never set and the status is
    Stopped.  Without a mixer no call is made and the status is Stopped. *)
Theorem toggle_pause_never_raises env m :
  playlist (self m) <> [] ->
  is_playing (self m) = true ->
  paused (self m) = false ->
  fst (toggle_play_pause env m) = Returned tt /\
  seek_offset (self (snd (toggle_play_pause env m))) = seek_offset (self m) /\
  last_update_time (self (snd (toggle_play_pause env m)))
    = last_update_time (self m) /\
  current_icon (self (snd (toggle_play_pause env m))) = play_bnt /\
  mixer (snd (toggle_play_pause env m)) =
    (if AUDIO_OK (self m) then mixer m ++ [Pause] else mixer m)%list /\
  status (self (snd (toggle_play_pause env m))) =
    (if AUDIO_OK (self m) && negb (backend_raises env (mixer m) Pause)
     then Paused else Stopped).
Proof.
  intros Hne Hplay Hpaused. apply truthy_nonempty in Hne.
  destruct m as [s tr]. destruct s.
  cbn [self mixer playlist is_playing paused AUDIO_OK] in *. subst.
  unfold toggle_play_pause, _pause_music. unfold_monad.
  cbn [fst snd self mixer playlist is_playing].
  rewrite Hne. cbn [negb fst snd self mixer playlist is_playing AUDIO_OK].
  destruct AUDIO_OK0; cbn [fst snd self mixer andb];
    [destruct (backend_raises env tr Pause) |]; cbn; auto 10.
Qed.

Lemma toggle_pause_never_raises_witness :
  fst (toggle_play_pause (no_pause 6000) one_loaded) = Returned tt /\
  status (self (snd (toggle_play_pause (no_pause 6000) one_loaded))) = Stopped.
Proof.
  destruct (toggle_pause_never_raises (no_pause 6000) one_loaded)
    as (Hr & _ & _ & _ & _ & Hs).
  - vm_compute. discriminate.
  - vm_compute. reflexivity.
  - vm_compute. reflexivity.
  - split; [exact Hr | exact Hs].
Defined.

(** From Stopped, play loads the current track and plays it from the
    start: the index is kept, the anchor is (0, now). *)
Theorem toggle_starts_current_track env m song :
  AUDIO_OK (self m) = true ->
  is_playing (self m) = false ->
  paused (self m) = false ->
  Py.getitem (playlist (self m)) (index (self m)) = Some song ->
  accepts env ->
  fst (toggle_play_pause env m) = Returned tt /\
  mixer (snd (toggle_play_pause env m)) = (mixer m ++ [Load song; Play])%list /\
  status (self (snd (toggle_play_pause env m))) = Playing /\
  index (self (snd (toggle_play_pause env m))) = index (self m) /\
  seek_offset (self (snd (toggle_play_pause env m))) = 0%Q /\
  last_update_time (self (snd (toggle_play_pause env m))) = get_ticks env /\
  current_icon (self (snd (toggle_play_pause env m))) = pause_bnt.
Proof.
  intros Hok Hplay Hpaused Hsong Ha.
  pose proof (getitem_nonempty _ _ _ Hsong) as Hne.
  apply truthy_nonempty in Hne. unfold accepts in Ha.
  destruct m as [s tr]. destruct s.
  cbn [self mixer playlist index is_playing paused AUDIO_OK] in *. subst.
  unfold toggle_play_pause, _play_music, _song_meta_data. unfold_monad.
  cbn [fst snd self mixer playlist index is_playing paused].
  rewrite Hne. cbn [negb fst snd self mixer playlist index is_playing paused].
  rewrite Hsong. cbn [fst snd self mixer AUDIO_OK]. rewrite !Ha.
  cbn [fst snd self mixer]. break_tests; accepted_leaf Ha.
Qed.

Lemma toggle_starts_current_track_witness :
  mixer (snd (toggle_play_pause (studio 200000)
                (after onTrackNaturallyEnded (studio 181000) three_loaded)))
  = (mixer three_loaded ++ [Load "a.mp3"; Play])%list.
Proof.
  refine (proj1 (proj2 (toggle_starts_current_track (studio 200000)
            (after onTrackNaturallyEnded (studio 181000) three_loaded) "a.mp3"
            _ _ _ _ (studio_accepts 200000)))); vm_compute; reflexivity.
Defined.

(** When [unpause] is rejected, resuming falls back on loading the
    current track again and playing it from the start. *)
Theorem toggle_resume_falls_back env m song :
  AUDIO_OK (self m) = true ->
  is_playing (self m) = false ->
  paused (self m) = true ->
  Py.getitem (playlist (self m)) (index (self m)) = Some song ->
  backend_raises env (mixer m) Unpause = true ->
  (forall calls, backend_raises env calls (Load song) = false) ->
  (forall calls, backend_raises env calls Play = false) ->
  fst (toggle_play_pause env m) = Returned tt /\
  mixer (snd (toggle_play_pause env m))
    = (mixer m ++ [Unpause; Load song; Play])%list /\
  status (self (snd (toggle_play_pause env m))) = Playing /\
  seek_offset (self (snd (toggle_play_pause env m))) = 0%Q /\
  last_update_time (self (snd (toggle_play_pause env m))) = get_ticks env.
Proof.
  intros Hok Hplay Hpaused Hsong Hun Hload Hgo.
  pose proof (getitem_nonempty _ _ _ Hsong) as Hne.
  apply truthy_nonempty in Hne.
  destruct m as [s tr]. destruct s.
  cbn [self mixer playlist index is_playing paused AUDIO_OK] in *. subst.
  unfold toggle_play_pause, _play_music, _song_meta_data. unfold_monad.
  cbn [fst snd self mixer playlist index is_playing paused].
  rewrite Hne. cbn [negb fst snd self mixer playlist index is_playing paused].
  rewrite Hun. cbn [fst snd self mixer playlist index AUDIO_OK].
  rewrite Hsong. cbn [fst snd self mixer AUDIO_OK]. rewrite Hload.
  cbn [fst snd self mixer]. rewrite Hgo.
  cbn [fst snd self mixer]. break_tests; cbn in *;
    repeat split; try reflexivity; rewrite <- !app_assoc; reflexivity.
Qed.

Lemma toggle_resume_falls_back_witness :
  mixer (snd (toggle_play_pause (no_unpause 60000) one_paused))
    = (mixer one_paused ++ [Unpause; Load "a.mp3"; Play])%list /\
  seek_offset (self (snd (toggle_play_pause (no_unpause 60000) one_paused))) = 0%Q /\
  last_update_time (self (snd (toggle_play_pause (no_unpause 60000) one_paused)))
    = 60000.
Proof.
  destruct (toggle_resume_falls_back (no_unpause 60000) one_paused "a.mp3")
    as (_ & Hm & _ & Ho & Ht);
    try (vm_compute; reflexivity); try (intros calls; reflexivity).
  split; [exact Hm | split; [exact Ho | exact Ht]].
Defined.

(** ** Loop-one and loading *)

(** In loop-one mode the end of a track loads the same track again and
    plays it from the start; the index does not move. *)
Theorem on_song_end_repeat_one env m song :
  loop_mode (self m) = 2 ->
  AUDIO_OK (self m) = true ->
  Py.getitem (playlist (self m)) (index (self m)) = Some song ->
  accepts env ->
  fst (on_song_end env m) = Returned tt /\
  mixer (snd (on_song_end env m)) = (mixer m ++ [Load song; Play])%list /\
  index (self (snd (on_song_end env m))) = index (self m) /\
  status (self (snd (on_song_end env m))) = Playing /\
  seek_offset (self (snd (on_song_end env m))) = 0%Q /\
  last_update_time (self (snd (on_song_end env m))) = get_ticks env /\
  current_icon (self (snd (on_song_end env m))) = pause_bnt /\
  window_current_icon (self (snd (on_song_end env m))) = pause_bnt.
Proof.
  intros Hmode Hok Hsong Ha. unfold accepts in Ha.
  destruct m as [s tr]. destruct s.
  cbn [self mixer playlist index loop_mode AUDIO_OK] in *. subst.
  unfold on_song_end, _play_music, _song_meta_data. unfold_monad.
  cbn [fst snd self mixer playlist index loop_mode Z.eqb Pos.eqb].
  rewrite Hsong. cbn [fst snd self mixer AUDIO_OK]. rewrite !Ha.
  cbn [fst snd self mixer]. break_tests; accepted_leaf Ha.
Qed.

Lemma on_song_end_repeat_one_witness :
  mixer (snd (on_song_end (studio 181000)
                (perform_all (repeated cycleLoopMode [studio 1; studio 2])
                   on_second_track)))
  = (mixer on_second_track ++ [Load "b.mp3"; Play])%list.
Proof.
  refine (proj1 (proj2 (on_song_end_repeat_one (studio 181000)
            (perform_all (repeated cycleLoopMode [studio 1; studio 2])
               on_second_track) "b.mp3" _ _ _ (studio_accepts 181000))));
    vm_compute; reflexivity.
Defined.

(** Loading files while the index is 0 (as it is until the first skip):
    the selection becomes the playlist, its first track is loaded and
    played from the start, and the metadata read from that file is shown;
    an absent tag shows as the empty string. *)
Theorem add_songs_at_index_zero file files env m :
  index (self m) = 0 ->
  AUDIO_OK (self m) = true ->
  accepts env ->
  fst (add_songs (file :: files) env m) = Returned tt /\
  playlist (self (snd (add_songs (file :: files) env m))) = file :: files /\
  mixer (snd (add_songs (file :: files) env m)) = (mixer m ++ [Load file; Play])%list /\
  status (self (snd (add_songs (file :: files) env m))) = Playing /\
  seek_offset (self (snd (add_songs (file :: files) env m))) = 0%Q /\
  last_update_time (self (snd (add_songs (file :: files) env m))) = get_ticks env /\
  (forall f, MP3 env file = Some f ->
     song_length (self (snd (add_songs (file :: files) env m)))
       = Py.int (info_length f) /\
     current_song_title (self (snd (add_songs (file :: files) env m)))
       = first_or_empty (tag_title f) /\
     current_song_artist (self (snd (add_songs (file :: files) env m)))
       = first_or_empty (tag_artist f)).
Proof.
  intros Hi Hok Ha. unfold accepts in Ha.
  destruct m as [s tr]. destruct s.
  cbn [self mixer index AUDIO_OK] in *. subst.
  unfold add_songs, _play_music, _song_meta_data. unfold_monad.
  cbn. rewrite !Ha. cbn.
  destruct (MP3 env file) as [f |]; cbn;
    repeat match goal with |- _ /\ _ => split end;
    try reflexivity; try (rewrite <- app_assoc; reflexivity);
    intros f' Hf;
    first [discriminate Hf | (injection Hf as <-; repeat split; reflexivity)].
Qed.

Lemma add_songs_at_index_zero_witness :
  mixer (snd (add_songs ["p.mp3"; "q.mp3"] (studio 300000)
                (after onTrackNaturallyEnded (studio 181000) one_loaded)))
  = (mixer one_loaded ++ [Load "p.mp3"; Play])%list.
Proof.
  refine (proj1 (proj2 (proj2 (add_songs_at_index_zero "p.mp3" ["q.mp3"]
            (studio 300000)
            (after onTrackNaturallyEnded (studio 181000) one_loaded)
            _ _ (studio_accepts 300000)))));
    vm_compute; reflexivity.
Defined.

(** ** What the window displays *)

Lemma int_inject_Z (z : Z) : Py.int (inject_Z z) = z.
Proof. unfold Py.int, inject_Z. cbn. apply Z.quot_1_r. Qed.








(** For every input, negative ones and fractions included, the formatter
    drops the fraction (toward zero), and the seconds field is the
    two-digit remainder in 00..59 of Python's floor division. *)
Theorem convert_sec_min_any (seconds : Q) :
  convert_sec_min seconds =
    Py.str (Py.int seconds / 60) ++ ":" ++ pad2 (Py.int seconds mod 60) /\
  convert_sec_min seconds = convert_sec_min (inject_Z (Py.int seconds)) /\
  0 <= Py.int seconds mod 60 < 60.
Proof.
  assert (Hr : 0 <= Py.int seconds mod 60 < 60) by (apply Z.mod_pos_bound; lia).
  split; [| split; [| exact Hr]].
  - unfold convert_sec_min, Py.floordiv, Py.mod_.
    rewrite format_02_two_digits by exact Hr. reflexivity.
  - unfold convert_sec_min. rewrite int_inject_Z. reflexivity.
Qed.

(** * The slider widget *)

Lemma max_is_Qmax (a b : Q) : py_max a b = Qmax a b.
Proof.
  unfold py_max, Qmax, GenericMinMax.gmax, Qle_bool, Qcompare.
  destruct (Z.leb_spec (Qnum b * QDen a) (Qnum a * QDen b)) as [H | H];
    destruct (Z.compare_spec (Qnum a * QDen b) (Qnum b * QDen a));
    (reflexivity || lia).
Qed.

(** [max(0.0, min(1.0, q))]: inside the unit interval, equal to [q] when
    [q] is inside, and to the nearer end otherwise. *)
Lemma clamp_unit (q : Q) :
  (0 <= py_max 0 (Py.min 1 q) <= 1)%Q /\
  ((0 <= q <= 1)%Q -> (py_max 0 (Py.min 1 q) == q)%Q) /\
  ((q <= 0)%Q -> (py_max 0 (Py.min 1 q) == 0)%Q) /\
  ((1 <= q)%Q -> (py_max 0 (Py.min 1 q) == 1)%Q).
Proof.
  rewrite max_is_Qmax, min_is_Qmin. repeat split.
  - apply Q.le_max_l.
  - apply Q.max_lub; [discriminate | apply Q.le_min_l].
  - intros [H0 H1]. rewrite Q.min_r by exact H1. apply Q.max_r, H0.
  - intros H. apply Q.max_l. apply Qle_trans with q; [apply Q.le_min_r | exact H].
  - intros H. rewrite Q.min_l by exact H. apply Q.max_r. discriminate.
Qed.

Lemma gt_iff (x y : Q) : py_gt x y = true <-> (y < x)%Q.
Proof.
  unfold py_gt. rewrite negb_true_iff. split.
  - intros H. apply Qnot_le_lt. intros Hle. apply Qle_bool_iff in Hle. congruence.
  - intros H. destruct (Qle_bool x y) eqn:E; [| reflexivity].
    apply Qle_bool_iff in E. destruct (Qlt_not_le _ _ H E).
Qed.

Lemma abs_is_Qabs (x : Q) : (py_abs x == Qabs x)%Q.
Proof.
  unfold py_abs. destruct (Qle_bool 0 x) eqn:E.
  - apply Qle_bool_iff in E. symmetry. apply Qabs_pos, E.
  - symmetry. apply Qabs_neg. apply Qlt_le_weak, Qnot_le_lt.
    intros H. apply Qle_bool_iff in H. congruence.
Qed.

(** One update of the slider from a mouse position.  The outcome is one
    of two: nothing happens, or the clamped target is stored and handed to
    the callback.  The bar and the dragging flag are kept, and a bar of no
    width ignores the mouse.  The target lies in [0, 1]: it is the fraction
    of the bar left of the mouse, 0 left of the bar and 1 right of it.  The
    callback is called whenever the target differs from the stored value
    by more than 1e-6, and is not called when it differs by less (each with
    a margin of 1e-9, inside which the rounding of the float subtraction
    decides). *)
Theorem update_slider_position_clamps pos s :
  let relative := (inject_Z (fst pos - rect_x (rect s))
                   / inject_Z (rect_width (rect s)))%Q in
  let target := py_max 0 (Py.min 1 relative) in
  let moved := (mkSlider (rect s) target (dragging s), Some target) in
  (_update_slider_position pos s = (s, None) \/
   _update_slider_position pos s = moved) /\
  (rect_width (rect s) <= 0 -> _update_slider_position pos s = (s, None)) /\
  (0 < rect_width (rect s) ->
   ((1 # 1000000) + (1 # 1000000000) < Qabs (target - value s))%Q ->
   _update_slider_position pos s = moved) /\
  ((Qabs (target - value s) < (1 # 1000000) - (1 # 1000000000))%Q ->
   _update_slider_position pos s = (s, None)) /\
  (0 <= target <= 1)%Q /\
  ((0 <= relative <= 1)%Q -> (target == relative)%Q) /\
  ((relative <= 0)%Q -> (target == 0)%Q) /\
  ((1 <= relative)%Q -> (target == 1)%Q).
Proof.
  cbv zeta.
  set (relative := (inject_Z (fst pos - rect_x (rect s))
                    / inject_Z (rect_width (rect s)))%Q).
  set (target := py_max 0 (Py.min 1 relative)).
  destruct (clamp_unit relative) as (Hunit & Hin & Hlo & Hhi).
  assert (Hrun : _update_slider_position pos s =
                 if rect_width (rect s) <=? 0 then (s, None)
                 else if py_gt (py_abs (target - value s)) (1 # 1000000)
                      then (mkSlider (rect s) target (dragging s), Some target)
                      else (s, None)) by reflexivity.
  assert (Hgt : py_gt (py_abs (target - value s)) (1 # 1000000) = true <->
                (1 # 1000000 < Qabs (target - value s))%Q).
  { rewrite gt_iff, abs_is_Qabs. reflexivity. }
  split; [| split; [| split; [| split]]].
  - rewrite Hrun. destruct (rect_width (rect s) <=? 0); [left; reflexivity |].
    destruct (py_gt (py_abs (target - value s)) (1 # 1000000));
      [right | left]; reflexivity.
  - intros Hw. rewrite Hrun.
    destruct (Z.leb_spec (rect_width (rect s)) 0); [reflexivity | lia].
  - intros Hw Hfar. rewrite Hrun.
    destruct (Z.leb_spec (rect_width (rect s)) 0); [lia |].
    assert (E : py_gt (py_abs (target - value s)) (1 # 1000000) = true).
    { apply Hgt. eapply Qlt_trans; [| exact Hfar]. reflexivity. }
    rewrite E. reflexivity.
  - intros Hnear. rewrite Hrun.
    destruct (rect_width (rect s) <=? 0); [reflexivity |].
    destruct (py_gt (py_abs (target - value s)) (1 # 1000000)) eqn:E;
      [| reflexivity].
    pose proof (proj1 Hgt eq_refl) as Hfar. exfalso.
    apply (Qlt_irrefl (1 # 1000000)).
    eapply Qlt_trans; [exact Hfar |]. eapply Qlt_trans; [exact Hnear |].
    reflexivity.
  - split; [exact Hunit |]. split; [exact Hin |]. split; [exact Hlo | exact Hhi].
Qed.

Lemma update_slider_position_clamps_witness :
  _update_slider_position (910, 368) music_slider =
  (mkSlider (mkRect 745 366 330 7)
     (py_max 0 (Py.min 1 (inject_Z (910 - 745) / inject_Z 330))) false,
   Some (py_max 0 (Py.min 1 (inject_Z (910 - 745) / inject_Z 330)))).
Proof.
  refine (proj1 (proj2 (proj2 (update_slider_position_clamps (910, 368)
            music_slider))) _ _).
  - cbn. lia.
  - vm_compute. reflexivity.
Defined.

Section Widget.

Variable collidepoint : Rect -> Z * Z -> bool.

Lemma update_slider_position_step pos s :
  rect (fst (_update_slider_position pos s)) = rect s /\
  (forall v, snd (_update_slider_position pos s) = Some v ->
     value (fst (_update_slider_position pos s)) = v /\ (0 <= v <= 1)%Q) /\
  (snd (_update_slider_position pos s) = None ->
   value (fst (_update_slider_position pos s)) = value s).
Proof.
  unfold _update_slider_position.
  destruct (rect_width (rect s) <=? 0); cbn [fst snd];
    [repeat split; intros; discriminate |].
  match goal with
  | |- context [py_gt ?x ?y] => destruct (py_gt x y)
  end; cbn [fst snd rect value].
  - split; [reflexivity |]. split; [| intros; discriminate].
    intros v Hv. injection Hv as <-. split; [reflexivity | apply clamp_unit].
  - repeat split; intros; discriminate.
Qed.

Lemma handle_event_step event s :
  rect (fst (handle_event collidepoint event s)) = rect s /\
  (forall v, snd (handle_event collidepoint event s) = Some v ->
     value (fst (handle_event collidepoint event s)) = v /\ (0 <= v <= 1)%Q) /\
  (snd (handle_event collidepoint event s) = None ->
   value (fst (handle_event collidepoint event s)) = value s).
Proof.
  destruct event as [button pos | pos | button pos |]; cbn [handle_event].
  - destruct ((button =? 1) && collidepoint (rect s) pos).
    + apply (update_slider_position_step pos (mkSlider (rect s) (value s) true)).
    + cbn. repeat split; intros; discriminate.
  - destruct (dragging s); [apply update_slider_position_step |].
    cbn. repeat split; intros; discriminate.
  - destruct (button =? 1); cbn; repeat split; intros; discriminate.
  - cbn. repeat split; intros; discriminate.
Qed.

(** Over any queue of events the slider keeps its bar, its value stays in
    [0, 1], and every value handed to the callback lies in [0, 1], which
    is what [adjust_song] and [change_volume] are called with. *)
Theorem handle_events_unit_interval events s :
  (0 <= value s <= 1)%Q ->
  rect (fst (handle_events collidepoint events s)) = rect s /\
  (0 <= value (fst (handle_events collidepoint events s)) <= 1)%Q /\
  Forall (fun v => in_domain (seek v) /\ in_domain (setVolume v))
    (snd (handle_events collidepoint events s)).
Proof.
  revert s. induction events as [| event events IH]; intros s Hs.
  - cbn. repeat split; try apply Hs. constructor.
  - cbn [handle_events].
    destruct (handle_event_step event s) as (Hr & Hv & Hn).
    destruct (handle_event collidepoint event s) as [s1 call]. cbn [fst snd] in *.
    assert (Hs1 : (0 <= value s1 <= 1)%Q).
    { destruct call as [v |].
      - destruct (Hv v eq_refl) as [-> H]. exact H.
      - rewrite (Hn eq_refl). exact Hs. }
    destruct (IH s1 Hs1) as (Hr2 & Hv2 & Hall).
    destruct (handle_events collidepoint events s1) as [s2 calls].
    cbn [fst snd] in *. split; [congruence |]. split; [exact Hv2 |].
    destruct call as [v |]; [| exact Hall].
    constructor; [| exact Hall]. destruct (Hv v eq_refl) as [_ H].
    cbn. split; exact H.
Qed.

(** Until the left button goes down inside the bar, nothing the mouse does
    moves the slider or calls its callback. *)
Theorem handle_events_needs_press events s :
  dragging s = false ->
  (forall button pos, In (MOUSEBUTTONDOWN button pos) events ->
     (button =? 1) && collidepoint (rect s) pos = false) ->
  handle_events collidepoint events s = (s, []).
Proof.
  revert s. induction events as [| event events IH]; intros s Hd Hno.
  - reflexivity.
  - cbn [handle_events].
    assert (Hstep : handle_event collidepoint event s = (s, None)).
    { destruct event as [button pos | pos | button pos |]; cbn [handle_event].
      - rewrite (Hno button pos (or_introl eq_refl)). reflexivity.
      - rewrite Hd. reflexivity.
      - destruct (button =? 1); [| reflexivity].
        destruct s; cbn in Hd; subst; reflexivity.
      - reflexivity. }
    rewrite Hstep, IH; [reflexivity | exact Hd |].
    intros button pos Hin. apply Hno. right. exact Hin.
Qed.

End Widget.

Lemma handle_events_unit_interval_witness :
  Forall (fun v => in_domain (seek v) /\ in_domain (setVolume v))
    (snd (handle_events pygame_collidepoint
            [MOUSEBUTTONDOWN 1 (800, 368); MOUSEMOTION (2000, 368);
             MOUSEBUTTONUP 1 (2000, 368)] music_slider)).
Proof.
  apply (handle_events_unit_interval pygame_collidepoint).
  split; discriminate.
Defined.

Lemma handle_events_needs_press_witness :
  handle_events pygame_collidepoint
    [MOUSEMOTION (800, 368); MOUSEBUTTONDOWN 1 (800, 100);
     MOUSEBUTTONDOWN 3 (800, 368); MOUSEMOTION (900, 368)] music_slider
  = (music_slider, []).
Proof.
  apply (handle_events_needs_press pygame_collidepoint).
  - reflexivity.
  - intros button pos [H | [H | [H | [H | []]]]]; inversion H; reflexivity.
Defined.



(** What [draw] paints, for a bar of non-negative width: the knob is
    always on the bar; with the value in [0, 1] the filled part is no wider
    than the bar and the knob sits at its right end (the clamp of the
    knob does nothing). *)
Theorem draw_knob_on_bar s :
  0 <= rect_width (rect s) ->
  rect_x (rect s) <= draw_knob_x s <= rect_x (rect s) + rect_width (rect s) /\
  ((0 <= value s <= 1)%Q ->
   0 <= draw_fill_width s <= rect_width (rect s) /\
   draw_knob_x s = rect_x (rect s) + draw_fill_width s).
Proof.
  intros Hw. split; [unfold draw_knob_x; lia |].
  intros [H0 H1].
  assert (Hfill : 0 <= draw_fill_width s <= rect_width (rect s)).
  { unfold draw_fill_width.
    assert (Hlo : (0 <= inject_Z (rect_width (rect s)) * value s)%Q).
    { apply Qmult_le_0_compat; [apply inject_Z_nonneg, Hw | exact H0]. }
    assert (Hhi : (inject_Z (rect_width (rect s)) * value s
                   <= inject_Z (rect_width (rect s)))%Q).
    { rewrite Qmult_comm. apply seek_target_in_range; [split |]; assumption. }
    rewrite int_nonneg_floor by exact Hlo. split.
    - rewrite <- int_nonneg_floor by exact Hlo. apply int_nonneg, Hlo.
    - apply Qfloor_resp_le in Hhi. rewrite Qfloor_Z in Hhi. exact Hhi. }
  split; [exact Hfill |]. unfold draw_knob_x. lia.
Qed.

Lemma draw_knob_on_bar_witness :
  745 <= draw_knob_x (mkSlider (mkRect 745 366 330 7) (22 # 7) false) <= 1075.
Proof.
  refine (proj1 (draw_knob_on_bar (mkSlider (mkRect 745 366 330 7) (22 # 7) false) _)).
  cbn. lia.
Defined.

(** * Buttons *)

Section Button.

Variable collidepoint : Rect -> Z * Z -> bool.

Local Open Scope list_scope.

Lemma handle_overlay_rect event b :
  button_rect (handle_overlay collidepoint event b) = button_rect b.
Proof.
  destruct event as [button pos | pos | button pos |]; cbn; try reflexivity.
  destruct (collidepoint (button_rect b) pos); reflexivity.
Qed.

Lemma button_events_rect events b :
  button_rect (fst (button_events collidepoint events b)) = button_rect b.
Proof.
  revert b. induction events as [| event events IH]; intros b; [reflexivity |].
  cbn [button_events]. specialize (IH (handle_overlay collidepoint event b)).
  destruct (button_events collidepoint events (handle_overlay collidepoint event b)).
  cbn [fst] in *. rewrite IH. apply handle_overlay_rect.
Qed.

Lemma button_events_app events1 events2 b :
  button_events collidepoint (events1 ++ events2) b =
  (fst (button_events collidepoint events2
          (fst (button_events collidepoint events1 b))),
   snd (button_events collidepoint events1 b) ++
   snd (button_events collidepoint events2
          (fst (button_events collidepoint events1 b)))).
Proof.
  revert b. induction events1 as [| event events1 IH]; intros b.
  - cbn. destruct (button_events collidepoint events2 b); reflexivity.
  - change ((event :: events1) ++ events2) with (event :: (events1 ++ events2)).
    change (button_events collidepoint (event :: events1 ++ events2) b)
      with (let (b2, clicks) :=
              button_events collidepoint (events1 ++ events2)
                (handle_overlay collidepoint event b) in
            (b2, was_clicked collidepoint event
                   (handle_overlay collidepoint event b) :: clicks)).
    rewrite IH.
    change (button_events collidepoint (event :: events1) b)
      with (let (b2, clicks) :=
              button_events collidepoint events1
                (handle_overlay collidepoint event b) in
            (b2, was_clicked collidepoint event
                   (handle_overlay collidepoint event b) :: clicks)).
    destruct (button_events collidepoint events1
                (handle_overlay collidepoint event b)).
    reflexivity.
Qed.

Lemma button_events_clicks events b :
  snd (button_events collidepoint events b) =
  map (fun event => was_clicked collidepoint event b) events.
Proof.
  revert b. induction events as [| event events IH]; intros b; [reflexivity |].
  cbn [button_events map]. specialize (IH (handle_overlay collidepoint event b)).
  destruct (button_events collidepoint events (handle_overlay collidepoint event b))
    as [b2 clicks].
  cbn [snd] in *. rewrite IH. f_equal.
  - destruct event; cbn; rewrite ?handle_overlay_rect; reflexivity.
  - apply map_ext. intros e. destruct e; cbn; try reflexivity.
    rewrite handle_overlay_rect. reflexivity.
Qed.

Lemma quiet_events_keep events b :
  Forall (quiet collidepoint b) events ->
  is_down (fst (button_events collidepoint events b)) = is_down b.
Proof.
  revert b. induction events as [| event events IH]; intros b Hq; [reflexivity |].
  inversion Hq as [| e es He Hes]; subst. cbn [button_events].
  assert (Hstep : handle_overlay collidepoint event b = b).
  { destruct event as [button pos | pos | button pos |]; cbn in *;
      [rewrite He; reflexivity | reflexivity | destruct He | reflexivity]. }
  rewrite Hstep. specialize (IH b Hes).
  destruct (button_events collidepoint events b). exact IH.
Qed.

Lemma was_clicked_release event b :
  was_clicked collidepoint event b =
  match event with
  | MOUSEBUTTONUP _ pos => collidepoint (button_rect b) pos
  | _ => false
  end.
Proof.
  destruct event as [button pos | pos | button pos |]; cbn; try reflexivity.
  destruct (collidepoint (button_rect b) pos); reflexivity.
Qed.

(** A button over a queue of events.  Its rectangle never changes.  The
    pressed overlay follows the last press inside or release: after a
    release (anywhere, any mouse button) it is off, after a press inside it
    is on, and events that are neither leave it as it is.  The answer of
    [was_clicked] to an event is true when the event is a release inside
    the rectangle and false for every other event, whatever was pressed
    before and wherever. *)
Theorem overlay_tracks_press before event after_ b :
  Forall (quiet collidepoint b) after_ ->
  button_rect (fst (button_events collidepoint (before ++ event :: after_) b))
    = button_rect b /\
  (forall button pos, event = MOUSEBUTTONUP button pos ->
     is_down (fst (button_events collidepoint (before ++ event :: after_) b))
       = false) /\
  (forall button pos, event = MOUSEBUTTONDOWN button pos ->
     collidepoint (button_rect b) pos = true ->
     is_down (fst (button_events collidepoint (before ++ event :: after_) b))
       = true) /\
  snd (button_events collidepoint (before ++ event :: after_) b) =
    map (fun e => match e with
                  | MOUSEBUTTONUP _ pos => collidepoint (button_rect b) pos
                  | _ => false
                  end)
        (before ++ event :: after_) /\
  (forall button pos down,
     was_clicked collidepoint (MOUSEBUTTONUP button pos)
       (mkButtons (button_rect b) down)
     = collidepoint (button_rect b) pos).
Proof.
  intros Hq. split; [apply button_events_rect |].
  split; [| split; [| split]].
  - intros button pos ->. rewrite button_events_app. cbn [fst].
    set (b1 := fst (button_events collidepoint before b)).
    cbn [button_events].
    assert (Hq1 : Forall (quiet collidepoint
                            (handle_overlay collidepoint (MOUSEBUTTONUP button pos) b1))
                    after_).
    { eapply Forall_impl; [| exact Hq]. intros e. unfold quiet.
      rewrite handle_overlay_rect. unfold b1. rewrite button_events_rect. auto. }
    pose proof (quiet_events_keep _ _ Hq1) as Hk.
    destruct (button_events collidepoint after_
                (handle_overlay collidepoint (MOUSEBUTTONUP button pos) b1)).
    cbn [fst] in *. rewrite Hk. reflexivity.
  - intros button pos -> Hin. rewrite button_events_app. cbn [fst].
    set (b1 := fst (button_events collidepoint before b)).
    cbn [button_events].
    assert (Hq1 : Forall (quiet collidepoint
                            (handle_overlay collidepoint (MOUSEBUTTONDOWN button pos) b1))
                    after_).
    { eapply Forall_impl; [| exact Hq]. intros e. unfold quiet.
      rewrite handle_overlay_rect. unfold b1. rewrite button_events_rect. auto. }
    pose proof (quiet_events_keep _ _ Hq1) as Hk.
    destruct (button_events collidepoint after_
                (handle_overlay collidepoint (MOUSEBUTTONDOWN button pos) b1)).
    cbn [fst] in *. rewrite Hk. cbn [handle_overlay].
    unfold b1. rewrite button_events_rect, Hin. reflexivity.
  - rewrite button_events_clicks. apply map_ext. intros e.
    apply was_clicked_release.
  - intros button pos down.
    apply (was_clicked_release (MOUSEBUTTONUP button pos)
             (mkButtons (button_rect b) down)).
Qed.

End Button.

Lemma overlay_tracks_press_witness :
  snd (button_events pygame_collidepoint
         ([MOUSEBUTTONDOWN 1 (500, 500)]
          ++ MOUSEBUTTONUP 1 (20, 20) :: [MOUSEMOTION (500, 500)])%list
         (mkButtons (mkRect 10 10 50 50) false))
  = [false; true; false] /\
  is_down (fst (button_events pygame_collidepoint
                  ([MOUSEBUTTONDOWN 1 (500, 500)]
                   ++ MOUSEBUTTONUP 1 (20, 20) :: [MOUSEMOTION (500, 500)])%list
                  (mkButtons (mkRect 10 10 50 50) false))) = false.
Proof.
  destruct (overlay_tracks_press pygame_collidepoint
              [MOUSEBUTTONDOWN 1 (500, 500)] (MOUSEBUTTONUP 1 (20, 20))
              [MOUSEMOTION (500, 500)]
              (mkButtons (mkRect 10 10 50 50) false))
    as (_ & Hup & _ & Hclicks & _).
  - repeat constructor.
  - split; [exact Hclicks | exact (Hup 1 (20, 20) eq_refl)].
Defined.

(** * Pause and resume, taken together *)

(** Pausing a playing track and resuming it, on a backend that accepts
    both: one [pause] and one [unpause] are issued, and the object comes
    back exactly as it was, anchor included, but for the icon, which is the
    pause button. *)
Theorem pause_resume_round_trip env1 env2 m :
  AUDIO_OK (self m) = true ->
  playlist (self m) <> [] ->
  is_playing (self m) = true ->
  paused (self m) = false ->
  accepts env1 -> accepts env2 ->
  fst (toggle_play_pause env1 m) = Returned tt /\
  status (self (snd (toggle_play_pause env1 m))) = Paused /\
  fst (toggle_play_pause env2 (snd (toggle_play_pause env1 m))) = Returned tt /\
  self (snd (toggle_play_pause env2 (snd (toggle_play_pause env1 m))))
    = set_current_icon pause_bnt (self m) /\
  mixer (snd (toggle_play_pause env2 (snd (toggle_play_pause env1 m))))
    = (mixer m ++ [Pause; Unpause])%list.
Proof.
  intros Hok Hne Hplay Hpaused Ha1 Ha2.
  assert (H1 : toggle_play_pause env1 m =
               (Returned tt,
                mkMachine
                  (set_current_icon play_bnt
                     (set_is_playing false (set_paused true (self m))))
                  (mixer m ++ [Pause]))).
  { apply truthy_nonempty in Hne. unfold accepts in Ha1.
    destruct m as [s tr]. destruct s.
    cbn [self mixer playlist is_playing paused AUDIO_OK] in *. subst.
    unfold toggle_play_pause, _pause_music. unfold_monad.
    cbn [fst snd self mixer playlist is_playing].
    rewrite Hne. cbn [negb fst snd self mixer playlist is_playing AUDIO_OK].
    rewrite Ha1. reflexivity. }
  rewrite H1. cbn [fst snd].
  rewrite toggle_resume.
  - cbn [fst snd self mixer]. repeat split.
    + destruct m as [s tr]. destruct s. cbn in *. subst. reflexivity.
    + rewrite <- app_assoc. reflexivity.
  - destruct m as [s tr]. destruct s. cbn in *. exact Hne.
  - reflexivity.
  - reflexivity.
  - apply Ha2.
Qed.

Lemma pause_resume_round_trip_witness :
  self (snd (toggle_play_pause (studio 60000)
               (snd (toggle_play_pause (studio 6000) three_loaded))))
  = set_current_icon pause_bnt (self three_loaded).
Proof.
  refine (proj1 (proj2 (proj2 (proj2 (pause_resume_round_trip
            (studio 6000) (studio 60000) three_loaded _ _ _ _
            (studio_accepts 6000) (studio_accepts 60000))))));
    vm_compute; (reflexivity || discriminate).
Defined.

(** * Instances of the invariant lemmas *)


Lemma valid_index_perform_witness :
  valid_index (self (snd (perform previous (dead_mixer 4000) three_loaded))).
Proof.
  apply (valid_index_perform previous (dead_mixer 4000) three_loaded).
  - apply reachable_Inv, three_loaded_reachable.
  - intros _. range_by_running.
  - intros files H. discriminate H.
Defined.

Lemma no_mixer_no_calls_witness :
  mixer (snd (perform next (dead_mixer 4000) no_mixer_loaded)) = mixer no_mixer_loaded.
Proof.
  apply (no_mixer_no_calls next (dead_mixer 4000) no_mixer_loaded).
  - apply reachable_Inv.
    apply reachable_after; [apply reach_init | exact I | apply studio_sane].
  - vm_compute. reflexivity.
  - intros volume H. discriminate H.
Defined.
